(** * INSA's Grade Rain Of Death: the game engine, its note registry and its
      session storage, embedded in Rocq.

    Sources: [src/js/cookies.js], [src/js/NoteType.js], [src/js/Game.js]
    (and the callers in [src/js/menu.js], [src/js/highscores.js]).

    Conventions of the embedding.
    - A JavaScript number that carries a position, a weight, a time stamp or
      a count of lives is a rational [Q]; every constant of the program
      (0.25, 0.5, 10, 0.03, ...) and every sum the engine forms from them is
      a rational, and comparisons are the exact ones.  Scores and the
      difficulty level are integers [Z].
    - [null] and [undefined] are [None].
    - Mutable objects are threaded explicitly: a method [m] of [Game] that
      mutates [this] is a function from the old object to the new one.
    - What lies outside the page's own code (the clock [performance.now()],
      [Math.random()], the answer typed into [prompt]) is an explicit
      argument. *)

From Stdlib Require Import ZArith QArith Lqa List String Ascii Bool Lia Sorted.
From stdpp Require Import base gmap strings list pretty.

Local Open Scope Z_scope.

(** ** Comparisons of JavaScript numbers *)

Definition Qltb (x y : Q) : bool := negb (Qle_bool y x).
Definition Qgtb (x y : Q) : bool := Qltb y x.
Definition Qleb (x y : Q) : bool := Qle_bool x y.

(** [String(n)] for an integer-valued number. *)
Definition String_of_Z (n : Z) : string := pretty n.

(* ===================================================================== *)
(** ** cookies.js: session storage, names, highscores, the handshake *)
(* ===================================================================== *)

Module Cookies.

(** [const HIGHSCORE_LIMIT = 10]. *)
Definition HIGHSCORE_LIMIT : nat := 10.

(** [class Player { constructor(name, score) }].  The score of an entry is
    the number the comparator [b.score - a.score] sees. *)
Record Player := { name : string; score : Z }.

(** [sessionStorage].  Every item is a string.  The item ["highscores"]
    holds [JSON.stringify] of an array of players and is read back with
    [JSON.parse] only; it is kept here in parsed form ([None] when the key
    is absent), the other items in [items].  [writes] is the history of the
    [setItem] calls on those other items, oldest first. *)
Record Session := {
  items : gmap string string;
  highscores : option (list Player);
  writes : list (string * string)
}.

Definition getItem (k : string) (s : Session) : option string := items s !! k.

Definition setItem (k v : string) (s : Session) : Session :=
  {| items := <[k := v]> (items s); highscores := highscores s;
     writes := writes s ++ [(k, v)] |}.

Definition setHighscores (l : list Player) (s : Session) : Session :=
  {| items := items s; highscores := Some l; writes := writes s |}.

(** [get_score_session]: the stored string, or the sentinel number -42. *)
Definition get_score_session (user : string) (s : Session) : Z + string :=
  match getItem (user +:+ " score") s with
  | None => inl (-42)
  | Some score => inr score
  end.

Definition set_score_session (user : string) (score : Z) (s : Session) : Session :=
  setItem (user +:+ " score") (String_of_Z score) s.

(** White space removed by [String.prototype.trim], over ASCII. *)
Definition is_space (c : ascii) : bool :=
  match c with
  | " "%char | "009"%char | "010"%char | "011"%char | "012"%char | "013"%char => true
  | _ => false
  end.

Fixpoint trim_left (s : string) : string :=
  match s with
  | String c r => if is_space c then trim_left r else s
  | EmptyString => EmptyString
  end.

Fixpoint trim_right (s : string) : string :=
  match s with
  | EmptyString => EmptyString
  | String c r =>
      match trim_right r with
      | EmptyString => if is_space c then EmptyString else String c EmptyString
      | r' => String c r'
      end
  end.

Definition trim (s : string) : string := trim_right (trim_left s).

(** [change_name(user)]; [reply] is what [prompt] returns ([None] when the
    dialog is cancelled). *)
Definition change_name (reply : option string) (user : string) (s : Session)
  : string * Session :=
  let name0 :=
    match reply with
    | None => user
    | Some n => if String.eqb (trim n) EmptyString then user else n
    end in
  let name1 := substring 0 12 (trim name0) in
  (name1, setItem user name1 s).

(** [get_name(user)]: the stored name, or the interactive flow. *)
Definition get_name (reply : option string) (user : string) (s : Session)
  : string * Session :=
  match getItem user s with
  | None => change_name reply user s
  | Some n => (n, s)
  end.

(** [get_highscores()]. *)
Definition get_highscores (s : Session) : list Player :=
  match highscores s with
  | None => []
  | Some l => l
  end.

(** [actual.sort(function (a, b) { return b.score - a.score; })].
    [Array.prototype.sort] is stable; so is this insertion sort, folded
    from the right: an element goes in front of the first entry whose
    score does not exceed its own. *)
Fixpoint insert_desc (p : Player) (l : list Player) : list Player :=
  match l with
  | [] => [p]
  | q :: r => if score q <=? score p then p :: q :: r else q :: insert_desc p r
  end.

Definition sort_desc (l : list Player) : list Player :=
  fold_right insert_desc [] l.

(** [arr.slice(begin)]: a new array, the receiver is untouched. *)
Definition slice {A} (start : nat) (l : list A) : list A := skipn start l.

(** [update_highscores(user, score)].  The array returned by [slice] is
    dropped, as in the source: what is stored is the whole sorted array. *)
Definition update_highscores (reply : option string) (user : string) (sc : Z)
    (s : Session) : Session :=
  let actual := get_highscores s in
  let '(nm, s1) := get_name reply user s in
  let player := {| name := nm; score := sc |} in
  let actual1 := actual ++ [player] in
  let actual2 := sort_desc actual1 in
  let _ := slice HIGHSCORE_LIMIT actual2 in
  setHighscores actual2 s1.

(** The value [increment_game_state] hands back: the array
    [[flag, user, score]]. *)
Record GameStateTuple := {
  friendLost : bool;
  friendUser : option string;
  friendScore : option string
}.

(** [v === "lit"] for a value read from storage. *)
Definition strict_eq (v : option string) (lit : string) : bool :=
  match v with
  | Some x => String.eqb x lit
  | None => false
  end.

(** [increment_game_state(user, score)]: [None] is the [undefined] a
    function returns when it falls off its end. *)
Definition increment_game_state (user : string) (sc : Z) (s : Session)
  : option GameStateTuple * Session :=
  let gameState := getItem "game_state_boolean" s in
  let s1 := setItem "game_state_boolean" "true" s in
  if strict_eq gameState "false" then
    let s2 := setItem "game_state_user" user s1 in
    let s3 := setItem "game_state_score" (String_of_Z sc) s2 in
    (Some {| friendLost := false; friendUser := None; friendScore := None |}, s3)
  else if strict_eq gameState "true" then
    let gameStateUser := getItem "game_state_user" s1 in
    let gameStateScore := getItem "game_state_score" s1 in
    (Some {| friendLost := true; friendUser := gameStateUser;
             friendScore := gameStateScore |}, s1)
  else (None, s1).

(** [release_game_state()]. *)
Definition release_game_state (s : Session) : Session :=
  setItem "game_state_score" (String_of_Z 0)
    (setItem "game_state_user" EmptyString
      (setItem "game_state_boolean" "false" s)).

End Cookies.

(* ===================================================================== *)
(** ** Game.js, "Audio helpers" and "Gameplay helpers": the part of a
       [Game] the note strategies act on *)
(* ===================================================================== *)

Module Run.

(** The fields of [Game] that [addScore], [addLives], [notifyDamage],
    [checkGameOver] and [playSfx] read or write.  [sfx] lists the keys of
    [this.sfx] that hold an audio object; [played] records, in order, the
    keys on which [audio.play()] was called; [perfNow] is the reading of
    [performance.now()]. *)
Record RunState := {
  score : Z;
  lives : Q;
  isGameOver : bool;
  livesLostAnimStart : option Q;
  deathAnimStart : option Q;
  sfx : list string;
  played : list string;
  perfNow : Q
}.

Definition set_score (v : Z) (r : RunState) : RunState :=
  {| score := v; lives := lives r; isGameOver := isGameOver r;
     livesLostAnimStart := livesLostAnimStart r;
     deathAnimStart := deathAnimStart r; sfx := sfx r;
     played := played r; perfNow := perfNow r |}.

Definition set_lives (v : Q) (r : RunState) : RunState :=
  {| score := score r; lives := v; isGameOver := isGameOver r;
     livesLostAnimStart := livesLostAnimStart r;
     deathAnimStart := deathAnimStart r; sfx := sfx r;
     played := played r; perfNow := perfNow r |}.

Definition set_isGameOver (v : bool) (r : RunState) : RunState :=
  {| score := score r; lives := lives r; isGameOver := v;
     livesLostAnimStart := livesLostAnimStart r;
     deathAnimStart := deathAnimStart r; sfx := sfx r;
     played := played r; perfNow := perfNow r |}.

Definition set_livesLostAnimStart (v : option Q) (r : RunState) : RunState :=
  {| score := score r; lives := lives r; isGameOver := isGameOver r;
     livesLostAnimStart := v;
     deathAnimStart := deathAnimStart r; sfx := sfx r;
     played := played r; perfNow := perfNow r |}.

Definition set_deathAnimStart (v : option Q) (r : RunState) : RunState :=
  {| score := score r; lives := lives r; isGameOver := isGameOver r;
     livesLostAnimStart := livesLostAnimStart r;
     deathAnimStart := v; sfx := sfx r;
     played := played r; perfNow := perfNow r |}.

Definition set_played (v : list string) (r : RunState) : RunState :=
  {| score := score r; lives := lives r; isGameOver := isGameOver r;
     livesLostAnimStart := livesLostAnimStart r;
     deathAnimStart := deathAnimStart r; sfx := sfx r;
     played := v; perfNow := perfNow r |}.

Definition set_perfNow (v : Q) (r : RunState) : RunState :=
  {| score := score r; lives := lives r; isGameOver := isGameOver r;
     livesLostAnimStart := livesLostAnimStart r;
     deathAnimStart := deathAnimStart r; sfx := sfx r;
     played := played r; perfNow := v |}.

(** [this.sfx[key]] is an audio object. *)
Definition has_audio (key : string) (r : RunState) : bool :=
  existsb (String.eqb key) (sfx r).

(** [playSfx(key)]: nothing without an audio object; otherwise [play()] is
    called, for the music as for the one-shot effects, and whatever it
    raises is swallowed. *)
Definition playSfx (key : string) (r : RunState) : RunState :=
  if has_audio key r then set_played (played r ++ [key]) r else r.

(** [addScore(delta)]. *)
Definition addScore (delta : Z) (r : RunState) : RunState :=
  set_score (score r + delta) r.

(** [addLives(delta)]. *)
Definition addLives (delta : Q) (r : RunState) : RunState :=
  set_lives (lives r + delta)%Q r.

(** [notifyDamage()]. *)
Definition notifyDamage (r : RunState) : RunState :=
  set_livesLostAnimStart (Some (perfNow r)) r.

(** [checkGameOver()]. *)
Definition checkGameOver (r : RunState) : RunState :=
  if Qgtb (lives r) 0 then r
  else
    let r1 := set_lives 0%Q r in
    let r2 := set_isGameOver true r1 in
    let r3 := match deathAnimStart r2 with
              | None => set_deathAnimStart (Some (perfNow r2)) r2
              | Some _ => r2
              end in
    playSfx "gameOver" r3.

(** How many times the cue [key] was played. *)
Definition cue_count (key : string) (r : RunState) : nat :=
  length (filter (fun k => String.eqb key k = true) (played r)).

End Run.

(* ===================================================================== *)
(** ** NoteType.js: the registry of note types and the falling notes *)
(* ===================================================================== *)

Module NoteTypes.

(** The data fields of a [NoteType]: what a strategy reads from its
    [type] argument. *)
Record NoteInfo := {
  name : string;
  src : string;
  weight : Q;
  score : Z;
  lifeDelta : Q
}.

(** [function NoteType(name, src, weight, scoreValue, lifeDelta, onCatch)];
    [onCatch(game, type)] acts on the game through the helpers of [Run]. *)
Record NoteType := {
  info : NoteInfo;
  onCatch : Run.RunState -> NoteInfo -> Run.RunState
}.

Definition makeNoteType (name src : string) (weight : Q) (score : Z)
    (lifeDelta : Q) (onCatch : Run.RunState -> NoteInfo -> Run.RunState)
  : NoteType :=
  {| info := {| name := name; src := src; weight := weight; score := score;
                lifeDelta := lifeDelta |};
     onCatch := onCatch |}.

(** The three strategy bodies of [buildNoteTypes]. *)
Definition onCatchA (game : Run.RunState) (type : NoteInfo) : Run.RunState :=
  Run.playSfx "goodA" (Run.addLives (lifeDelta type) (Run.addScore (score type) game)).

Definition onCatchGood (game : Run.RunState) (type : NoteInfo) : Run.RunState :=
  Run.playSfx "good" (Run.addScore (score type) game).

Definition onCatchBad (game : Run.RunState) (type : NoteInfo) : Run.RunState :=
  Run.checkGameOver
    (Run.playSfx "bad" (Run.notifyDamage (Run.addLives (lifeDelta type) game))).

(** [buildNoteTypes()]. *)
Definition buildNoteTypes : list NoteType :=
  [ makeNoteType "A" "./assets/images/A.png" (5 / 100) 100 (1 # 4) onCatchA;
    makeNoteType "B" "./assets/images/B.png" (10 / 100) 50 0 onCatchGood;
    makeNoteType "C" "./assets/images/C.png" (15 / 100) 30 0 onCatchGood;
    makeNoteType "D" "./assets/images/D.png" (15 / 100) 20 0 onCatchGood;
    makeNoteType "E" "./assets/images/E.png" (15 / 100) 10 0 onCatchGood;
    makeNoteType "Fx" "./assets/images/Fx.png" (25 / 100) 0 (- (1 # 2)) onCatchBad;
    makeNoteType "F" "./assets/images/F.png" (15 / 100) 0 (- 1) onCatchBad ].

(** A [Note]; [type] is [None] when the constructor was handed
    [undefined]. *)
Record Note := {
  type : option NoteType;
  w : Q;
  h : Q;
  x : Q;
  y : Q;
  dy : Q
}.

(** [new Note(type, canvasWidth, noteW, noteH, difficultyLevel)]; [rx] and
    [rdy] are the two draws of [Math.random()].  The arithmetic is exact
    here and rounded to doubles in the code. *)
Definition newNote (rx rdy : Q) (type : option NoteType)
    (canvasWidth noteW noteH : Q) (difficultyLevel : Z) : Note :=
  {| type := type;
     w := noteW;
     h := noteH;
     x := rx * (canvasWidth - noteW);
     y := - noteH;
     dy := 2 + (inject_Z difficultyLevel / 10) + rdy * inject_Z difficultyLevel |}%Q.

(** [update()]. *)
Definition update (n : Note) : Note :=
  {| type := type n; w := w n; h := h n; x := x n;
     y := (y n + dy n)%Q; dy := dy n |}.

(** [isOut(canvasHeight)]. *)
Definition isOut (canvasHeight : Q) (n : Note) : bool :=
  Qgtb (y n) canvasHeight.

(** [collidesWithRect(rx, ry, rw, rh)]. *)
Definition collidesWithRect (rx ry rw rh : Q) (n : Note) : bool :=
  Qltb (x n) (rx + rw) &&
  Qgtb (x n + w n) rx &&
  Qltb (y n) (ry + rh) &&
  Qgtb (y n + h n) ry.

End NoteTypes.

(* ===================================================================== *)
(** ** Game.js: the engine *)
(* ===================================================================== *)

Module Engine.

(** How a call ends: normally, or with an uncaught [TypeError] (a property
    read on [undefined]). *)
Inductive Completion := Normal | TypeError.

(** [String.prototype.toUpperCase], over ASCII. *)
Definition upper_char (c : ascii) : ascii :=
  let n := nat_of_ascii c in
  if (97 <=? n)%nat && (n <=? 122)%nat then ascii_of_nat (n - 32) else c.

Fixpoint toUpperCase (s : string) : string :=
  match s with
  | EmptyString => EmptyString
  | String c r => String (upper_char c) (toUpperCase r)
  end.

(** The [Game] object.  [canvas_width] and [canvas_height] are
    [this.canvas.width] and [this.canvas.height]; [run] groups the fields
    the helpers of [Run] act on; images are left out. *)
Record Game := {
  canvas_width : Q;
  canvas_height : Q;
  numberOfPlayers : Z;
  user : string;
  username : string;
  arrowLeft : string;
  arrowRight : string;
  noteWidth : Q;
  noteHeight : Q;
  caracterWidth : Q;
  caracterHeight : Q;
  run : Run.RunState;
  gameStarted : bool;
  previewed : bool;
  gameOverAlreadyHandled : bool;
  dead : bool;
  rightPressed : bool;
  leftPressed : bool;
  directionToken : bool;
  difficultyLevel : Z;
  difficultyIntervalId : option nat;
  notes : list NoteTypes.Note;
  caracterX : Q;
  noteTypes : list NoteTypes.NoteType;
  totalWeight : Q
}.

Definition set_username (v : string) (g : Game) : Game :=
  {| canvas_width := canvas_width g; canvas_height := canvas_height g;
     numberOfPlayers := numberOfPlayers g; user := user g; username := v;
     arrowLeft := arrowLeft g; arrowRight := arrowRight g;
     noteWidth := noteWidth g; noteHeight := noteHeight g;
     caracterWidth := caracterWidth g; caracterHeight := caracterHeight g;
     run := run g; gameStarted := gameStarted g; previewed := previewed g;
     gameOverAlreadyHandled := gameOverAlreadyHandled g; dead := dead g;
     rightPressed := rightPressed g; leftPressed := leftPressed g;
     directionToken := directionToken g;
     difficultyLevel := difficultyLevel g;
     difficultyIntervalId := difficultyIntervalId g; notes := notes g;
     caracterX := caracterX g; noteTypes := noteTypes g;
     totalWeight := totalWeight g |}.

Definition set_run (v : Run.RunState) (g : Game) : Game :=
  {| canvas_width := canvas_width g; canvas_height := canvas_height g;
     numberOfPlayers := numberOfPlayers g; user := user g;
     username := username g; arrowLeft := arrowLeft g;
     arrowRight := arrowRight g; noteWidth := noteWidth g;
     noteHeight := noteHeight g; caracterWidth := caracterWidth g;
     caracterHeight := caracterHeight g; run := v;
     gameStarted := gameStarted g; previewed := previewed g;
     gameOverAlreadyHandled := gameOverAlreadyHandled g; dead := dead g;
     rightPressed := rightPressed g; leftPressed := leftPressed g;
     directionToken := directionToken g;
     difficultyLevel := difficultyLevel g;
     difficultyIntervalId := difficultyIntervalId g; notes := notes g;
     caracterX := caracterX g; noteTypes := noteTypes g;
     totalWeight := totalWeight g |}.

Definition set_gameStarted (v : bool) (g : Game) : Game :=
  {| canvas_width := canvas_width g; canvas_height := canvas_height g;
     numberOfPlayers := numberOfPlayers g; user := user g;
     username := username g; arrowLeft := arrowLeft g;
     arrowRight := arrowRight g; noteWidth := noteWidth g;
     noteHeight := noteHeight g; caracterWidth := caracterWidth g;
     caracterHeight := caracterHeight g; run := run g; gameStarted := v;
     previewed := previewed g;
     gameOverAlreadyHandled := gameOverAlreadyHandled g; dead := dead g;
     rightPressed := rightPressed g; leftPressed := leftPressed g;
     directionToken := directionToken g;
     difficultyLevel := difficultyLevel g;
     difficultyIntervalId := difficultyIntervalId g; notes := notes g;
     caracterX := caracterX g; noteTypes := noteTypes g;
     totalWeight := totalWeight g |}.

Definition set_previewed (v : bool) (g : Game) : Game :=
  {| canvas_width := canvas_width g; canvas_height := canvas_height g;
     numberOfPlayers := numberOfPlayers g; user := user g;
     username := username g; arrowLeft := arrowLeft g;
     arrowRight := arrowRight g; noteWidth := noteWidth g;
     noteHeight := noteHeight g; caracterWidth := caracterWidth g;
     caracterHeight := caracterHeight g; run := run g;
     gameStarted := gameStarted g; previewed := v;
     gameOverAlreadyHandled := gameOverAlreadyHandled g; dead := dead g;
     rightPressed := rightPressed g; leftPressed := leftPressed g;
     directionToken := directionToken g;
     difficultyLevel := difficultyLevel g;
     difficultyIntervalId := difficultyIntervalId g; notes := notes g;
     caracterX := caracterX g; noteTypes := noteTypes g;
     totalWeight := totalWeight g |}.

Definition set_gameOverAlreadyHandled (v : bool) (g : Game) : Game :=
  {| canvas_width := canvas_width g; canvas_height := canvas_height g;
     numberOfPlayers := numberOfPlayers g; user := user g;
     username := username g; arrowLeft := arrowLeft g;
     arrowRight := arrowRight g; noteWidth := noteWidth g;
     noteHeight := noteHeight g; caracterWidth := caracterWidth g;
     caracterHeight := caracterHeight g; run := run g;
     gameStarted := gameStarted g; previewed := previewed g;
     gameOverAlreadyHandled := v; dead := dead g;
     rightPressed := rightPressed g; leftPressed := leftPressed g;
     directionToken := directionToken g;
     difficultyLevel := difficultyLevel g;
     difficultyIntervalId := difficultyIntervalId g; notes := notes g;
     caracterX := caracterX g; noteTypes := noteTypes g;
     totalWeight := totalWeight g |}.

Definition set_dead (v : bool) (g : Game) : Game :=
  {| canvas_width := canvas_width g; canvas_height := canvas_height g;
     numberOfPlayers := numberOfPlayers g; user := user g;
     username := username g; arrowLeft := arrowLeft g;
     arrowRight := arrowRight g; noteWidth := noteWidth g;
     noteHeight := noteHeight g; caracterWidth := caracterWidth g;
     caracterHeight := caracterHeight g; run := run g;
     gameStarted := gameStarted g; previewed := previewed g;
     gameOverAlreadyHandled := gameOverAlreadyHandled g; dead := v;
     rightPressed := rightPressed g; leftPressed := leftPressed g;
     directionToken := directionToken g;
     difficultyLevel := difficultyLevel g;
     difficultyIntervalId := difficultyIntervalId g; notes := notes g;
     caracterX := caracterX g; noteTypes := noteTypes g;
     totalWeight := totalWeight g |}.

Definition set_rightPressed (v : bool) (g : Game) : Game :=
  {| canvas_width := canvas_width g; canvas_height := canvas_height g;
     numberOfPlayers := numberOfPlayers g; user := user g;
     username := username g; arrowLeft := arrowLeft g;
     arrowRight := arrowRight g; noteWidth := noteWidth g;
     noteHeight := noteHeight g; caracterWidth := caracterWidth g;
     caracterHeight := caracterHeight g; run := run g;
     gameStarted := gameStarted g; previewed := previewed g;
     gameOverAlreadyHandled := gameOverAlreadyHandled g; dead := dead g;
     rightPressed := v; leftPressed := leftPressed g;
     directionToken := directionToken g;
     difficultyLevel := difficultyLevel g;
     difficultyIntervalId := difficultyIntervalId g; notes := notes g;
     caracterX := caracterX g; noteTypes := noteTypes g;
     totalWeight := totalWeight g |}.

Definition set_leftPressed (v : bool) (g : Game) : Game :=
  {| canvas_width := canvas_width g; canvas_height := canvas_height g;
     numberOfPlayers := numberOfPlayers g; user := user g;
     username := username g; arrowLeft := arrowLeft g;
     arrowRight := arrowRight g; noteWidth := noteWidth g;
     noteHeight := noteHeight g; caracterWidth := caracterWidth g;
     caracterHeight := caracterHeight g; run := run g;
     gameStarted := gameStarted g; previewed := previewed g;
     gameOverAlreadyHandled := gameOverAlreadyHandled g; dead := dead g;
     rightPressed := rightPressed g; leftPressed := v;
     directionToken := directionToken g;
     difficultyLevel := difficultyLevel g;
     difficultyIntervalId := difficultyIntervalId g; notes := notes g;
     caracterX := caracterX g; noteTypes := noteTypes g;
     totalWeight := totalWeight g |}.

Definition set_directionToken (v : bool) (g : Game) : Game :=
  {| canvas_width := canvas_width g; canvas_height := canvas_height g;
     numberOfPlayers := numberOfPlayers g; user := user g;
     username := username g; arrowLeft := arrowLeft g;
     arrowRight := arrowRight g; noteWidth := noteWidth g;
     noteHeight := noteHeight g; caracterWidth := caracterWidth g;
     caracterHeight := caracterHeight g; run := run g;
     gameStarted := gameStarted g; previewed := previewed g;
     gameOverAlreadyHandled := gameOverAlreadyHandled g; dead := dead g;
     rightPressed := rightPressed g; leftPressed := leftPressed g;
     directionToken := v; difficultyLevel := difficultyLevel g;
     difficultyIntervalId := difficultyIntervalId g; notes := notes g;
     caracterX := caracterX g; noteTypes := noteTypes g;
     totalWeight := totalWeight g |}.

Definition set_difficultyLevel (v : Z) (g : Game) : Game :=
  {| canvas_width := canvas_width g; canvas_height := canvas_height g;
     numberOfPlayers := numberOfPlayers g; user := user g;
     username := username g; arrowLeft := arrowLeft g;
     arrowRight := arrowRight g; noteWidth := noteWidth g;
     noteHeight := noteHeight g; caracterWidth := caracterWidth g;
     caracterHeight := caracterHeight g; run := run g;
     gameStarted := gameStarted g; previewed := previewed g;
     gameOverAlreadyHandled := gameOverAlreadyHandled g; dead := dead g;
     rightPressed := rightPressed g; leftPressed := leftPressed g;
     directionToken := directionToken g; difficultyLevel := v;
     difficultyIntervalId := difficultyIntervalId g; notes := notes g;
     caracterX := caracterX g; noteTypes := noteTypes g;
     totalWeight := totalWeight g |}.

Definition set_difficultyIntervalId (v : option nat) (g : Game) : Game :=
  {| canvas_width := canvas_width g; canvas_height := canvas_height g;
     numberOfPlayers := numberOfPlayers g; user := user g;
     username := username g; arrowLeft := arrowLeft g;
     arrowRight := arrowRight g; noteWidth := noteWidth g;
     noteHeight := noteHeight g; caracterWidth := caracterWidth g;
     caracterHeight := caracterHeight g; run := run g;
     gameStarted := gameStarted g; previewed := previewed g;
     gameOverAlreadyHandled := gameOverAlreadyHandled g; dead := dead g;
     rightPressed := rightPressed g; leftPressed := leftPressed g;
     directionToken := directionToken g;
     difficultyLevel := difficultyLevel g; difficultyIntervalId := v;
     notes := notes g; caracterX := caracterX g; noteTypes := noteTypes g;
     totalWeight := totalWeight g |}.

Definition set_notes (v : list NoteTypes.Note) (g : Game) : Game :=
  {| canvas_width := canvas_width g; canvas_height := canvas_height g;
     numberOfPlayers := numberOfPlayers g; user := user g;
     username := username g; arrowLeft := arrowLeft g;
     arrowRight := arrowRight g; noteWidth := noteWidth g;
     noteHeight := noteHeight g; caracterWidth := caracterWidth g;
     caracterHeight := caracterHeight g; run := run g;
     gameStarted := gameStarted g; previewed := previewed g;
     gameOverAlreadyHandled := gameOverAlreadyHandled g; dead := dead g;
     rightPressed := rightPressed g; leftPressed := leftPressed g;
     directionToken := directionToken g;
     difficultyLevel := difficultyLevel g;
     difficultyIntervalId := difficultyIntervalId g; notes := v;
     caracterX := caracterX g; noteTypes := noteTypes g;
     totalWeight := totalWeight g |}.

Definition set_caracterX (v : Q) (g : Game) : Game :=
  {| canvas_width := canvas_width g; canvas_height := canvas_height g;
     numberOfPlayers := numberOfPlayers g; user := user g;
     username := username g; arrowLeft := arrowLeft g;
     arrowRight := arrowRight g; noteWidth := noteWidth g;
     noteHeight := noteHeight g; caracterWidth := caracterWidth g;
     caracterHeight := caracterHeight g; run := run g;
     gameStarted := gameStarted g; previewed := previewed g;
     gameOverAlreadyHandled := gameOverAlreadyHandled g; dead := dead g;
     rightPressed := rightPressed g; leftPressed := leftPressed g;
     directionToken := directionToken g;
     difficultyLevel := difficultyLevel g;
     difficultyIntervalId := difficultyIntervalId g; notes := notes g;
     caracterX := v; noteTypes := noteTypes g;
     totalWeight := totalWeight g |}.

(** A pending [setTimeout] callback of [gameOver], by the values its
    closure captured: the instance ([owner] is its [user]), [update] and
    the two values read from the handshake. *)
Record Timeout := {
  delay : Z;
  owner : string;
  update : bool;
  myUserFriend : option string;
  myUserFriendScore : option string
}.

(** The page around the engines: [sessionStorage], the live interval
    timers (handle, and the [user] of the instance whose
    [difficultyLevel] the callback increments), the next timer handle,
    and the pending timeouts. *)
Record Env := {
  session : Cookies.Session;
  intervals : list (nat * string);
  nextId : nat;
  timeouts : list Timeout
}.

Definition set_session (v : Cookies.Session) (e : Env) : Env :=
  {| session := v; intervals := intervals e; nextId := nextId e;
     timeouts := timeouts e |}.

(** [setInterval(() => { this.difficultyLevel++; }, 5000)]. *)
Definition setInterval (who : string) (e : Env) : nat * Env :=
  (nextId e,
   {| session := session e; intervals := intervals e ++ [(nextId e, who)];
      nextId := S (nextId e); timeouts := timeouts e |}).

(** [clearInterval(id)]. *)
Definition clearInterval (id : nat) (e : Env) : Env :=
  {| session := session e;
     intervals := filter (fun p => fst p ≠ id) (intervals e);
     nextId := nextId e; timeouts := timeouts e |}.

(** [setTimeout(callback, ms)]: the page hands out the handles of
    [setTimeout] and of [setInterval] from one counter. *)
Definition setTimeout (t : Timeout) (e : Env) : Env :=
  {| session := session e; intervals := intervals e; nextId := S (nextId e);
     timeouts := timeouts e ++ [t] |}.

(** What one period of 5000 ms does to the instance [g]: every live
    interval timer bound to it runs [this.difficultyLevel++]. *)
Definition interval_elapsed (e : Env) (g : Game) : Game :=
  fold_left
    (fun g' p =>
       if String.eqb (snd p) (user g')
       then set_difficultyLevel (difficultyLevel g' + 1) g' else g')
    (intervals e) g.

(** *** Bootstrap / lifecycle *)

(** [startDifficultyRamp()]. *)
Definition startDifficultyRamp (g : Game) (e : Env) : Game * Env :=
  match difficultyIntervalId g with
  | Some _ => (g, e)
  | None =>
      let '(id, e1) := setInterval (user g) e in
      (set_difficultyIntervalId (Some id) g, e1)
  end.

(** [stopDifficultyRamp()]. *)
Definition stopDifficultyRamp (g : Game) (e : Env) : Game * Env :=
  match difficultyIntervalId g with
  | None => (g, e)
  | Some id => (set_difficultyIntervalId None g, clearInterval id e)
  end.

(** [resetStateToDefaults()]; [reply] answers the [prompt] of [get_name]
    when no name is stored. *)
Definition resetStateToDefaults (reply : option string) (g : Game) (e : Env)
  : Game * Env :=
  let r := run g in
  let r1 := Run.set_lives 3%Q (Run.set_score 0 r) in
  let '(nm, s1) := Cookies.get_name reply (user g) (session e) in
  let g1 := set_username (toUpperCase nm) (set_run r1 g) in
  let g2 := set_gameStarted false g1 in
  let g3 := set_run (Run.set_isGameOver false (run g2)) g2 in
  let g4 := set_dead false (set_gameOverAlreadyHandled false g3) in
  let g5 := set_leftPressed false (set_rightPressed false g4) in
  let g6 := set_difficultyIntervalId None (set_difficultyLevel 1 g5) in
  let g7 := set_run (Run.set_deathAnimStart None
                       (Run.set_livesLostAnimStart None (run g6))) g6 in
  let g8 := set_notes [] g7 in
  let g9 := set_caracterX ((canvas_width g8 - caracterWidth g8) / 2)%Q g8 in
  (g9, set_session s1 e).

(** [restart()]. *)
Definition restart (reply : option string) (g : Game) (e : Env) : Game * Env :=
  let e1 := set_session (Cookies.release_game_state (session e)) e in
  let '(g1, e2) := resetStateToDefaults reply g e1 in
  let g2 := set_gameStarted true g1 in
  startDifficultyRamp g2 e2.

(** [gameOver(update)].  [gameState[0]] on [undefined] raises; what was
    written before stays written. *)
Definition gameOver (upd : bool) (g : Game) (e : Env) : Completion * Game * Env :=
  if dead g then (Normal, g, e)
  else
    let g1 := set_dead true g in
    let s1 := Cookies.set_score_session (user g1) (Run.score (run g1)) (session e) in
    let '(gameState, s2) :=
      Cookies.increment_game_state (user g1) (Run.score (run g1)) s1 in
    let e2 := set_session s2 e in
    match gameState with
    | None => (TypeError, g1, e2)
    | Some t =>
        let isMyfriendLose := Cookies.friendLost t in
        if (numberOfPlayers g1 =? 1) || isMyfriendLose then
          (Normal, g1,
           setTimeout {| delay := 2000; owner := user g1; update := upd;
                         myUserFriend := Cookies.friendUser t;
                         myUserFriendScore := Cookies.friendScore t |} e2)
        else (Normal, g1, e2)
    end.

(** The arguments of one call of [viewHighscores]. *)
Record NavCall := {
  nav_numberOfPlayers : Z;
  nav_update : bool;
  nav_direct : bool;
  thisUser : string;
  thisScore : Z;
  nav_myUserFriend : option string;
  nav_myUserFriendScore : option string
}.

(** The body of the callback [gameOver] hands to [setTimeout], run on the
    instance it closed over; [globalPlayers] is the page-level variable
    [numberOfPlayers] of main.js. *)
Definition run_timeout (globalPlayers : Z) (t : Timeout) (g : Game) (e : Env)
  : Game * Env * NavCall :=
  let '(g1, e1) := stopDifficultyRamp g e in
  (g1, e1,
   {| nav_numberOfPlayers := globalPlayers; nav_update := update t;
      nav_direct := true; thisUser := user g1;
      thisScore := Run.score (run g1);
      nav_myUserFriend := myUserFriend t;
      nav_myUserFriendScore := myUserFriendScore t |}).

(** *** Input handling *)

(** [keyDownHandler(e)], [keyUpHandler(e)] on the key [code]. *)
Definition keyDownHandler (code : string) (g : Game) : Game :=
  if String.eqb code (arrowRight g) then set_rightPressed true g
  else if String.eqb code (arrowLeft g) then set_leftPressed true g
  else g.

Definition keyUpHandler (code : string) (g : Game) : Game :=
  if String.eqb code (arrowRight g) then set_rightPressed false g
  else if String.eqb code (arrowLeft g) then set_leftPressed false g
  else g.

(** *** Note selection / spawning *)

(** [arr[i]] for an integer index: [undefined] outside the array. *)
Definition js_index {A} (l : list A) (i : Z) : option A :=
  if i <? 0 then None else l !! Z.to_nat i.

(** The [for ... of] loop of [getRandomNoteType]: [sum] is the running
    total on entry. *)
Fixpoint pick_loop (r sum : Q) (l : list NoteTypes.NoteType)
  : option NoteTypes.NoteType :=
  match l with
  | [] => None
  | element :: rest =>
      let sum1 := (sum + NoteTypes.weight (NoteTypes.info element))%Q in
      if Qltb r sum1 then Some element else pick_loop r sum1 rest
  end.

(** The selection for a draw [r]: the loop, then the fallback
    [noteTypes[noteTypes.length - 1]]. *)
Definition selectNoteType (r : Q) (types : list NoteTypes.NoteType)
  : option NoteTypes.NoteType :=
  match pick_loop r 0 types with
  | Some element => Some element
  | None => js_index types (Z.of_nat (length types) - 1)
  end.

(** [getRandomNoteType()]; [rnd] is the value of [Math.random()]. *)
Definition getRandomNoteType (rnd : Q) (g : Game) : option NoteTypes.NoteType :=
  selectNoteType (rnd * totalWeight g)%Q (noteTypes g).

(** The constructor's [this.noteTypes.reduce((acc, t) => acc + t.weight, 0)]. *)
Definition computeTotalWeight (types : list NoteTypes.NoteType) : Q :=
  fold_left (fun acc t => (acc + NoteTypes.weight (NoteTypes.info t))%Q) types 0%Q.

(** [spawnNote()] with its three random draws. *)
Definition spawnNote (rndType rndX rndDy : Q) (g : Game) : Game :=
  let type := getRandomNoteType rndType g in
  let n := NoteTypes.newNote rndX rndDy type (canvas_width g) (noteWidth g)
             (noteHeight g) (difficultyLevel g) in
  set_notes (notes g ++ [n]) g.

(** *** Simulation update *)

(** [updatePlayer()]. *)
Definition updatePlayer (g : Game) : Game :=
  if Run.isGameOver (run g) then g
  else
    let step := 10%Q in
    let canRight := rightPressed g &&
                    Qltb (caracterX g) (canvas_width g - caracterWidth g) in
    let canLeft := leftPressed g && Qgtb (caracterX g) 0 in
    if directionToken g then
      let g1 := if canRight then set_caracterX (caracterX g + step)%Q g
                else if canLeft then set_caracterX (caracterX g - step)%Q g
                else g in
      set_directionToken false g1
    else
      let g1 := if canLeft then set_caracterX (caracterX g - step)%Q g
                else if canRight then set_caracterX (caracterX g + step)%Q g
                else g in
      set_directionToken true g1.

(** [applyCollisionEffects(note)]. *)
Definition applyCollisionEffects (note : NoteTypes.Note) (g : Game) : Game :=
  match NoteTypes.type note with
  | Some t => set_run (NoteTypes.onCatch t (run g) (NoteTypes.info t)) g
  | None => g
  end.

(** [this.notes.splice(i, 1)]. *)
Definition splice1 {A} (i : nat) (l : list A) : list A := delete i l.

(** The [for] loop of [updateNotes], about to run its body for the
    indices [k - 1] down to [0].  [n.update()] changes the note in place;
    on a missing element it would raise. *)
Fixpoint updateNotes_loop (paddleX paddleY paddleW paddleH : Q) (k : nat)
    (g : Game) : Completion * Game :=
  match k with
  | O => (Normal, g)
  | S i =>
      match notes g !! i with
      | None => (TypeError, g)
      | Some n0 =>
          let n := NoteTypes.update n0 in
          let g1 := set_notes (<[i := n]> (notes g)) g in
          if NoteTypes.isOut (canvas_height g1) n then
            updateNotes_loop paddleX paddleY paddleW paddleH i
              (set_notes (splice1 i (notes g1)) g1)
          else if Run.isGameOver (run g1) then
            updateNotes_loop paddleX paddleY paddleW paddleH i g1
          else if NoteTypes.collidesWithRect paddleX paddleY paddleW paddleH n then
            let g2 := applyCollisionEffects n g1 in
            updateNotes_loop paddleX paddleY paddleW paddleH i
              (set_notes (splice1 i (notes g2)) g2)
          else
            updateNotes_loop paddleX paddleY paddleW paddleH i g1
      end
  end.

(** [updateNotes()]. *)
Definition updateNotes (g : Game) : Completion * Game :=
  let paddleX := caracterX g in
  let paddleY := (canvas_height g - caracterHeight g)%Q in
  let paddleW := caracterWidth g in
  let paddleH := caracterHeight g in
  updateNotes_loop paddleX paddleY paddleW paddleH (length (notes g)) g.

(** *** Rendering: only what a draw routine does to the state *)

(** [drawNotes()]: [note.draw] reads [this.type.image]. *)
Definition drawNotes (g : Game) : Completion :=
  if forallb (fun n => match NoteTypes.type n with Some _ => true | None => false end)
       (notes g)
  then Normal else TypeError.

(** [drawLives()]: the damage feedback timer is dropped once its 500 ms
    are over. *)
Definition livesLostAnimDuration : Q := 500.

Definition drawLives (g : Game) : Game :=
  match Run.livesLostAnimStart (run g) with
  | None => g
  | Some t0 =>
      let elapsed := (Run.perfNow (run g) - t0)%Q in
      if Qleb elapsed livesLostAnimDuration then g
      else set_run (Run.set_livesLostAnimStart None (run g)) g
  end.

(** [drawGameOver()]. *)
Definition drawGameOver (g : Game) (e : Env) : Completion * Game * Env :=
  if negb (gameOverAlreadyHandled g) then
    gameOver true (set_gameOverAlreadyHandled true g) e
  else (Normal, g, e).

(** *** Main loop *)

(** What one frame takes from outside: the clock and the draws of
    [Math.random()] for the spawn test and for the spawned note. *)
Record FrameInput := {
  now : Q;
  rndSpawn : Q;
  rndType : Q;
  rndX : Q;
  rndDy : Q
}.

(** [loop()], one frame.  [requestAnimationFrame(this.loop)] is reached
    exactly when the frame completes normally. *)
Definition loop (i : FrameInput) (g0 : Game) (e : Env) : Completion * Game * Env :=
  let g := set_run (Run.set_perfNow (now i) (run g0)) g0 in
  if negb (gameStarted g) && negb (Run.isGameOver (run g)) then (Normal, g, e)
  else
    let g1 :=
      if negb (Run.isGameOver (run g)) &&
         Qltb (rndSpawn i) ((3 # 100) + inject_Z (difficultyLevel g) / 300)
      then spawnNote (rndType i) (rndX i) (rndDy i) g else g in
    match updateNotes g1 with
    | (TypeError, g2) => (TypeError, g2, e)
    | (Normal, g2) =>
        let g3 := updatePlayer g2 in
        match drawNotes g3 with
        | TypeError => (TypeError, g3, e)
        | Normal =>
            let g4 := drawLives g3 in
            if Run.isGameOver (run g4) then drawGameOver g4 e
            else (Normal, g4, e)
        end
    end.

(** The frames the browser schedules: the next one runs only if the
    previous one re-armed [requestAnimationFrame]. *)
Fixpoint run_frames (inputs : list FrameInput) (g : Game) (e : Env)
  : Completion * Game * Env :=
  match inputs with
  | [] => (Normal, g, e)
  | i :: rest =>
      match loop i g e with
      | (Normal, g1, e1) => run_frames rest g1 e1
      | stopped => stopped
      end
  end.

(** [start(preview)]; the first call of an instance runs [loop()] once,
    synchronously. *)
Definition start (i : FrameInput) (reply : option string) (preview : bool)
    (g : Game) (e : Env) : Completion * Game * Env :=
  let e1 := set_session (Cookies.release_game_state (session e)) e in
  let first :=
    if negb (previewed g) then
      match loop i g e1 with
      | (Normal, g1, e2) => (Normal, set_previewed true g1, e2)
      | stopped => stopped
      end
    else (Normal, g, e1) in
  match first with
  | (Normal, g1, e2) =>
      if negb preview then
        let '(nm, s3) := Cookies.get_name reply (user g1) (session e2) in
        let g2 := set_gameStarted true (set_username (toUpperCase nm) g1) in
        let '(g3, e3) := startDifficultyRamp g2 (set_session s3 e2) in
        (Normal, set_run (Run.playSfx "backgroundMusic" (run g3)) g3, e3)
      else (Normal, g1, e2)
  | stopped => stopped
  end.

(** [function Game(opts)]: the object a constructor call returns. *)
Definition newGame (perf : Q) (canvasW canvasH : Q) (players : Z)
    (usr left right : string) (audio : list string)
    (types : list NoteTypes.NoteType) (noteW noteH carW carH : Q) : Game :=
  {| canvas_width := canvasW; canvas_height := canvasH;
     numberOfPlayers := players; user := usr; username := toUpperCase usr;
     arrowLeft := left; arrowRight := right;
     noteWidth := noteW; noteHeight := noteH;
     caracterWidth := carW; caracterHeight := carH;
     run := {| Run.score := 0; Run.lives := 3; Run.isGameOver := false;
               Run.livesLostAnimStart := None; Run.deathAnimStart := None;
               Run.sfx := audio; Run.played := []; Run.perfNow := perf |};
     gameStarted := false; previewed := false;
     gameOverAlreadyHandled := false; dead := false;
     rightPressed := false; leftPressed := false; directionToken := true;
     difficultyLevel := 1; difficultyIntervalId := None;
     notes := [];
     caracterX := ((canvasW - carW) / 2)%Q;
     noteTypes := types; totalWeight := computeTotalWeight types |}.

(** The instance [initialiseGame("Player 1", ...)] of menu.js builds, once
    [showGame] has sized the canvas. *)
Definition player1Game (canvasW canvasH : Q) (players : Z) : Game :=
  newGame 0 canvasW canvasH players "Player 1" "KeyA" "KeyD"
    ["backgroundMusic"; "goodA"; "good"; "bad"; "gameOver"]
    NoteTypes.buildNoteTypes 80 80 150 250.

(** The instance for ["Player 2"]: no background music. *)
Definition player2Game (canvasW canvasH : Q) (players : Z) : Game :=
  newGame 0 canvasW canvasH players "Player 2" "ArrowLeft" "ArrowRight"
    ["goodA"; "good"; "bad"; "gameOver"]
    NoteTypes.buildNoteTypes 80 80 150 250.

(** A fresh page: empty [sessionStorage], no timers. *)
Definition emptyEnv : Env :=
  {| session := {| Cookies.items := ∅; Cookies.highscores := None;
                   Cookies.writes := [] |};
     intervals := []; nextId := 1%nat; timeouts := [] |}.

End Engine.

(* ===================================================================== *)
(** ** Concrete states used below *)
(* ===================================================================== *)

Module Samples.

(** A run whose last catch was an F at half a life: lives are below zero
    and [checkGameOver] has not run yet. *)
Definition depleted_run : Run.RunState :=
  {| Run.score := 120; Run.lives := - (1 # 2); Run.isGameOver := false;
     Run.livesLostAnimStart := Some 1000%Q; Run.deathAnimStart := None;
     Run.sfx := ["backgroundMusic"; "goodA"; "good"; "bad"; "gameOver"];
     Run.played := ["bad"]; Run.perfNow := 1000 |}.

(** The registry of the scenario: one type A of weight 1, worth 100 points
    and a quarter of a life. *)
Definition typeA : NoteTypes.NoteType :=
  NoteTypes.makeNoteType "A" "./assets/images/A.png" 1 100 (1 # 4)
    NoteTypes.onCatchA.




(** A finished run of player 1 (1000 x 800 canvas): no lives left, the flag
    set, and two live notes of type F, one over the paddle and one about to
    leave the canvas. *)
Definition typeF : NoteTypes.NoteType :=
  NoteTypes.makeNoteType "F" "./assets/images/F.png" (15 / 100) 0 (- 1)
    NoteTypes.onCatchBad.

Definition over_game : Engine.Game :=
  let g := Engine.player1Game 1000 800 1 in
  Engine.set_gameStarted true
    (Engine.set_notes
       [ {| NoteTypes.type := Some typeF; NoteTypes.w := 80; NoteTypes.h := 80;
            NoteTypes.x := 450; NoteTypes.y := 600; NoteTypes.dy := 3 |};
         {| NoteTypes.type := Some typeF; NoteTypes.w := 80; NoteTypes.h := 80;
            NoteTypes.x := 20; NoteTypes.y := 799; NoteTypes.dy := 3 |} ]
       (Engine.set_run
          (Run.checkGameOver (Run.set_lives 0 (Run.set_score 230 (Engine.run g))))
          g)).

(** Player 1 alone, run started, half a life left, an F over the paddle. *)
Definition half_life_game : Engine.Game :=
  let g := Engine.player1Game 1000 800 1 in
  Engine.set_gameStarted true
    (Engine.set_notes
       [ {| NoteTypes.type := Some typeF; NoteTypes.w := 80; NoteTypes.h := 80;
            NoteTypes.x := 450; NoteTypes.y := 600; NoteTypes.dy := 3 |} ]
       (Engine.set_run (Run.set_lives (1 # 2) (Engine.run g)) g)).


(** The page after [release_game_state()]. *)
Definition released_env : Engine.Env :=
  Engine.set_session
    (Cookies.release_game_state (Engine.session Engine.emptyEnv))
    Engine.emptyEnv.

(** A frame at clock reading [t] whose spawn draw is too high to spawn. *)
Definition quiet_frame (t : Q) : Engine.FrameInput :=
  {| Engine.now := t; Engine.rndSpawn := 99 # 100; Engine.rndType := 0;
     Engine.rndX := 0; Engine.rndDy := 0 |}.

(** The two instances of a two-player run, with scores 150 and 90, and a
    single-player instance with score 70. *)
Definition p1_of_two : Engine.Game :=
  let g := Engine.player1Game 900 800 2 in
  Engine.set_run (Run.set_score 150 (Engine.run g)) g.

Definition p2_of_two : Engine.Game :=
  let g := Engine.player2Game 900 800 2 in
  Engine.set_run (Run.set_score 90 (Engine.run g)) g.

Definition p1_alone : Engine.Game :=
  let g := Engine.player1Game 1000 800 1 in
  Engine.set_run (Run.set_score 70 (Engine.run g)) g.

(** A two-player session up to the restart: both instances are started,
    player 1 loses first (no navigation, its ramp keeps running), player 2
    loses next and its timeout callback runs (its ramp is stopped), then
    [restartGame] calls [game1.restart()].  The result is player 1's
    instance and the page after that restart. *)
Definition restarted_after_two_player_run : Engine.Game * Engine.Env :=
  let '(_, g1, e1) :=
    Engine.start (quiet_frame 0) (Some "ANN"%string) false
      (Engine.player1Game 900 800 2) Engine.emptyEnv in
  let '(_, g2, e2) :=
    Engine.start (quiet_frame 0) (Some "BOB"%string) false
      (Engine.player2Game 900 800 2) e1 in
  let '(_, g1', e3) := Engine.gameOver true g1 e2 in
  let '(_, g2', e4) := Engine.gameOver true g2 e3 in
  let e5 :=
    match Engine.timeouts e4 with
    | t :: _ => snd (fst (Engine.run_timeout 2 t g2' e4))
    | [] => e4
    end in
  Engine.restart None g1' e5.

(** Ten stored highscores, in descending order, and the name of player 1. *)
Definition ten_highscores : Cookies.Session :=
  {| Cookies.items := {[ "Player 1"%string := "ANN"%string ]};
     Cookies.highscores :=
       Some (map (fun sc => {| Cookies.name := "ANN"; Cookies.score := sc |})
               [900; 800; 700; 600; 500; 400; 300; 200; 100; 50]);
     Cookies.writes := [] |}.

(** Player 1 alone on the 1000 pixel canvas, just restarted (paddle centred
    at 425), with the right key held down. *)
Definition right_held_game : Engine.Game :=
  Engine.keyDownHandler "KeyD"
    (fst (Engine.restart (Some "ANN"%string)
            (Engine.player1Game 1000 800 1) released_env)).

End Samples.

(* ===================================================================== *)
(** ** Vocabulary of the statements *)
(* ===================================================================== *)

Module Vocabulary.

(** The handshake flag holds one of the two strings the code writes. *)
Definition handshake_ready (s : Cookies.Session) : Prop :=
  Cookies.getItem "game_state_boolean" s = Some "true"%string \/
  Cookies.getItem "game_state_boolean" s = Some "false"%string.

(** [checkGameOver()] called when [performance.now()] reads [t]. *)
Definition checkGameOver_at (t : Q) (r : Run.RunState) : Run.RunState :=
  Run.checkGameOver (Run.set_perfNow t r).

(** [checkGameOver()] called once at each of the clock readings, in turn. *)
Definition called_again (clock : list Q) (r : Run.RunState) : Run.RunState :=
  fold_left (fun r' t => checkGameOver_at t r') clock r.


(** The three components of what an effectful engine call returns. *)
Definition completion_of (x : Engine.Completion * Engine.Game * Engine.Env)
  : Engine.Completion := fst (fst x).

Definition game_of (x : Engine.Completion * Engine.Game * Engine.Env)
  : Engine.Game := snd (fst x).

Definition env_of (x : Engine.Completion * Engine.Game * Engine.Env)
  : Engine.Env := snd x.


(** Every live note carries a note type. *)
Definition typed (n : NoteTypes.Note) : Prop :=
  exists t, NoteTypes.type n = Some t.

(** The [for] loop of [updateNotes] in structural form.  The loop runs from
    the last index down, so the notes behind the head are handled before
    the head; the result is the array after the loop and the run state. *)
Fixpoint sweep (H paddleX paddleY paddleW paddleH : Q)
    (l : list NoteTypes.Note) (r : Run.RunState)
  : list NoteTypes.Note * Run.RunState :=
  match l with
  | [] => ([], r)
  | n0 :: rest =>
      let '(rest', r1) := sweep H paddleX paddleY paddleW paddleH rest r in
      let n := NoteTypes.update n0 in
      if NoteTypes.isOut H n then (rest', r1)
      else if Run.isGameOver r1 then (n :: rest', r1)
      else if NoteTypes.collidesWithRect paddleX paddleY paddleW paddleH n then
        (rest',
         match NoteTypes.type n with
         | Some t => NoteTypes.onCatch t r1 (NoteTypes.info t)
         | None => r1
         end)
      else (n :: rest', r1)
  end.

(** Weighted selection in the words of the specification.  The cumulative
    weight of entry [i] is the sum of the weights of the entries [0 .. i],
    added in registry order. *)
Definition cumulative (types : list NoteTypes.NoteType) (i : nat) : Q :=
  Engine.computeTotalWeight (take (S i) types).

(** The least index whose cumulative weight exceeds [r], if there is one. *)
Definition first_exceeding (r : Q) (types : list NoteTypes.NoteType) : option nat :=
  List.find (fun i => Qltb r (cumulative types i)) (seq 0 (length types)).

(** The first entry whose cumulative weight exceeds [r]; the last registry
    entry when no entry matches ([last] of an empty registry is [None], the
    [undefined] of JavaScript). *)
Definition pick_spec (r : Q) (types : list NoteTypes.NoteType)
  : option NoteTypes.NoteType :=
  match first_exceeding r types with
  | Some i => types !! i
  | None => last types
  end.

(** One frame of [loop] up to, and without, the game-over overlay, for a
    frame in which neither [updateNotes] nor [drawNotes] raises. *)
Definition before_overlay (i : Engine.FrameInput) (g0 : Engine.Game) : Engine.Game :=
  let g := Engine.set_run (Run.set_perfNow (Engine.now i) (Engine.run g0)) g0 in
  if negb (Engine.gameStarted g) && negb (Run.isGameOver (Engine.run g)) then g
  else
    let g1 :=
      if negb (Run.isGameOver (Engine.run g)) &&
         Qltb (Engine.rndSpawn i)
           ((3 # 100) + inject_Z (Engine.difficultyLevel g) / 300)
      then Engine.spawnNote (Engine.rndType i) (Engine.rndX i) (Engine.rndDy i) g
      else g in
    let '(l', r') :=
      sweep (Engine.canvas_height g1) (Engine.caracterX g1)
        (Engine.canvas_height g1 - Engine.caracterHeight g1)%Q
        (Engine.caracterWidth g1) (Engine.caracterHeight g1)
        (Engine.notes g1) (Engine.run g1) in
    Engine.drawLives
      (Engine.updatePlayer (Engine.set_run r' (Engine.set_notes l' g1))).



(** A string contains a blank. *)
Fixpoint has_blank (s : string) : bool :=
  match s with
  | EmptyString => false
  | String c r => Ascii.eqb c " " || has_blank r
  end.

End Vocabulary.

(* ===================================================================== *)
(** ** JavaScript values and the comparisons the page applies to scores *)
(* ===================================================================== *)

Module Js.

(** The values a score variable holds in highscores.js and cookies.js: a
    number (scores are integers), a string read from [sessionStorage], or
    [null]. *)
Inductive Value := Num (n : Z) | Str (s : string) | Null.

(** [String(v)]. *)
Definition String_of (v : Value) : string :=
  match v with
  | Num n => String_of_Z n
  | Str s => s
  | Null => "null"
  end.

(** [a === b]: same type and same value. *)
Definition strict_equal (a b : Value) : bool :=
  match a, b with
  | Num x, Num y => x =? y
  | Str s, Str t => String.eqb s t
  | Null, Null => true
  | _, _ => false
  end.

Section Coercion.

(** What the language does with a string that has to become a number;
    [None] is [NaN]. *)
Variable toNumber : string -> option Q.

(** [ToNumber]: [null] is 0. *)
Definition ToNumber (v : Value) : option Q :=
  match v with
  | Num n => Some (inject_Z n)
  | Str s => toNumber s
  | Null => Some 0%Q
  end.

(** The relational comparison behind [<], [>] and [>=]: two strings are
    compared as strings, anything else as numbers; [None] is the
    [undefined] a [NaN] operand gives. *)
Definition less (a b : Value) : option bool :=
  match a, b with
  | Str s, Str t => Some (String.ltb s t)
  | _, _ =>
      match ToNumber a, ToNumber b with
      | Some x, Some y => Some (Qltb x y)
      | _, _ => None
      end
  end.

(** [a < b], [a > b], [a >= b]. *)
Definition lt (a b : Value) : bool :=
  match less a b with Some true => true | _ => false end.

Definition gt (a b : Value) : bool := lt b a.

Definition ge (a b : Value) : bool :=
  match less a b with Some false => true | _ => false end.

End Coercion.

End Js.

(* ===================================================================== *)
(** ** highscores.js and the winner alert of cookies.js *)
(* ===================================================================== *)

Module Results.

Section Coercion.

Variable toNumber : string -> option Q.

(** What [get_score_session] returns, as a value. *)
Definition score_value (x : Z + string) : Js.Value :=
  match x with
  | inl n => Js.Num n
  | inr s => Js.Str s
  end.

(** The [for (let i = 1; i <= numberOfPlayers; i++)] loop of
    [set_score_text], about to run for [i], with [fuel] rounds left. *)
Fixpoint session_max (fuel : nat) (i : Z) (max_score : Js.Value)
    (s : Cookies.Session) : Js.Value :=
  match fuel with
  | O => max_score
  | S fuel' =>
      let user_score :=
        score_value (Cookies.get_score_session ("Player " +:+ String_of_Z i) s) in
      session_max fuel' (i + 1)
        (if Js.gt toNumber user_score max_score then user_score else max_score) s
  end.

(** [set_score_text(numberOfPlayers, direct, thisScore, myUserFriendScore)]:
    the text it puts into the score banner. *)
Definition set_score_text (numberOfPlayers : Z) (direct : bool)
    (thisScore myUserFriendScore : Js.Value) (s : Cookies.Session) : string :=
  let text := "Score: "%string in
  let max_score := Js.Num 0 in
  let '(text1, max_score1) :=
    if numberOfPlayers =? 2 then
      (("Best " +:+ text)%string,
       if direct then
         if Js.ge toNumber thisScore myUserFriendScore then thisScore
         else myUserFriendScore
       else max_score)
    else if (numberOfPlayers =? 1) && direct then (text, thisScore)
    else (text, max_score) in
  let max_score2 :=
    if negb direct
    then session_max (Z.to_nat numberOfPlayers) 1 max_score1 s
    else max_score1 in
  (text1 +:+ Js.String_of max_score2)%string.

(** [twoPlayersWinnerAlert(thisUser, thisUserScore, userFriend,
    userFriendScore)]: the message it alerts, if any; [reply] answers the
    prompt of [get_name]. *)
Definition twoPlayersWinnerAlert (reply : option string) (thisUser : string)
    (thisUserScore : Js.Value) (userFriend : string)
    (userFriendScore : Js.Value) (s : Cookies.Session)
  : option string * Cookies.Session :=
  if Js.gt toNumber thisUserScore userFriendScore then
    let '(thisUsername, s1) := Cookies.get_name reply thisUser s in
    (Some ("THE WINNER IS " +:+ Engine.toUpperCase thisUsername +:+ " !")%string, s1)
  else if Js.lt toNumber thisUserScore userFriendScore then
    let '(userFriendUsername, s1) := Cookies.get_name reply userFriend s in
    (Some ("THE WINNER IS " +:+ Engine.toUpperCase userFriendUsername +:+ " !")%string, s1)
  else if Js.strict_equal thisUserScore userFriendScore then
    (Some "PERFECT EQUALITY, YOU SHOULD PLAY AGAIN !"%string, s)
  else (None, s).

End Coercion.

(** A row of the highscores table: the id of the [tr] and its three
    cells. *)
Record Row := {
  rowId : option string;
  rankCell : string;
  nameCell : string;
  scoreCell : string
}.

(** The body of the [for (let i = 0; i < 10; i++)] loop of
    [set_highscore_table]. *)
Definition table_row (HIGHSCORES : list Cookies.Player) (i : nat) : Row :=
  {| rowId := if (i =? 0)%nat then Some "majored"%string else None;
     rankCell := if (i =? 0)%nat then "MAJOR"%string
                 else String_of_Z (Z.of_nat i + 1);
     nameCell := match HIGHSCORES !! i with
                 | Some p => Cookies.name p
                 | None => "-"%string
                 end;
     scoreCell := match HIGHSCORES !! i with
                  | Some p => String_of_Z (Cookies.score p)
                  | None => "-"%string
                  end |}.

(** [set_highscore_table()]: the rows of the rebuilt table body. *)
Definition set_highscore_table (s : Cookies.Session) : list Row :=
  map (table_row (Cookies.get_highscores s)) (seq 0 10).

End Results.

(* ===================================================================== *)
(** ** Game.js, touch input *)
(* ===================================================================== *)

Module Touch.

(** The [for] loop of [syncTouchesToState] over the touches it looks at;
    each is the [clientX] of a touch point. *)
Fixpoint scan (rectLeft rectWidth : Q) (touches : list Q) (left right : bool)
  : bool * bool :=
  match touches with
  | [] => (left, right)
  | clientX :: rest =>
      let x := (clientX - rectLeft)%Q in
      if Qltb x (rectWidth / 2) then scan rectLeft rectWidth rest true right
      else scan rectLeft rectWidth rest left true
  end.

(** [syncTouchesToState(e)]: [rectLeft] and [rectWidth] come from
    [canvas.getBoundingClientRect()], [touches] from [e.targetTouches]. *)
Definition syncTouchesToState (rectLeft rectWidth : Q) (touches : list Q)
    (g : Engine.Game) : Engine.Game :=
  let count := Nat.min 2 (length touches) in
  let found := scan rectLeft rectWidth (take count touches) false false in
  Engine.set_rightPressed (snd found) (Engine.set_leftPressed (fst found) g).

(** [touchCancelHandler(e)]. *)
Definition touchCancelHandler (g : Engine.Game) : Engine.Game :=
  Engine.set_rightPressed false (Engine.set_leftPressed false g).

End Touch.

(* ===================================================================== *)
(** ** Vocabulary of the further statements *)
(* ===================================================================== *)

Module Invariants.

(** The live interval timers whose callback increments the difficulty of
    the instance of [u]. *)
Definition owned_timers (u : string) (e : Engine.Env) : nat :=
  length (filter (fun p => snd p = u) (Engine.intervals e)).

(** Every timer handle in use is below the next one to be handed out. *)
Definition handles_fresh (e : Engine.Env) : Prop :=
  Forall (fun p => (fst p < Engine.nextId e)%nat) (Engine.intervals e).

(** A note of one of the types [buildNoteTypes] builds. *)
Definition registry_note (n : NoteTypes.Note) : Prop :=
  exists t, NoteTypes.type n = Some t /\ In t NoteTypes.buildNoteTypes.

(** Lives and the game-over flag agree: a live run has lives above zero, a
    finished one has none. *)
Definition lives_match_flag (r : Run.RunState) : Prop :=
  (Run.isGameOver r = false /\ (0 < Run.lives r)%Q) \/
  (Run.isGameOver r = true /\ (Run.lives r == 0)%Q).

(** Two run states show the same outcome: score, lives, game-over flag,
    death timer and sounds played. *)
Definition same_outcome (r r' : Run.RunState) : Prop :=
  Run.score r' = Run.score r /\ Run.lives r' = Run.lives r /\
  Run.isGameOver r' = Run.isGameOver r /\
  Run.deathAnimStart r' = Run.deathAnimStart r /\
  Run.played r' = Run.played r.

(** Since the live state [r0], the game-over cue has been played once if
    the run is over and the sound is loaded, and not at all otherwise. *)
Definition game_over_cue_once (r0 r : Run.RunState) : Prop :=
  Run.sfx r = Run.sfx r0 /\
  Run.cue_count "gameOver" r =
    (Run.cue_count "gameOver" r0 +
     (if Run.isGameOver r && Run.has_audio "gameOver" r0 then 1 else 0))%nat.

(** A string that does not start with white space. *)
Definition no_leading_space (s : string) : Prop :=
  match s with
  | EmptyString => True
  | String c _ => Cookies.is_space c = false
  end.

(** One frame's worth of key state followed by the paddle update. *)
Definition press_and_move (keys : bool * bool) (g : Engine.Game) : Engine.Game :=
  Engine.updatePlayer
    (Engine.set_rightPressed (snd keys) (Engine.set_leftPressed (fst keys) g)).

(** A decimal reading of the strings [String(n)] produces, for the
    evaluation of the comparisons on concrete inputs: digits with an
    optional leading minus sign; anything else is [NaN]. *)
Fixpoint read_digits (s : string) (acc : Z) : option Z :=
  match s with
  | EmptyString => Some acc
  | String c r =>
      let n := Z.of_nat (nat_of_ascii c) in
      if (48 <=? n) && (n <=? 57) then read_digits r (10 * acc + (n - 48))
      else None
  end.

Definition read_decimal (s : string) : option Q :=
  match s with
  | EmptyString => None
  | String "-"%char r =>
      match r with
      | EmptyString => None
      | _ => option_map (fun n => inject_Z (- n)) (read_digits r 0)
      end
  | _ => option_map inject_Z (read_digits s 0)
  end.

End Invariants.

(* ===================================================================== *)
(** * Properties *)
(* ===================================================================== *)

(** ** Number comparisons *)

Lemma Qltb_lt (x y : Q) : Qltb x y = true <-> (x < y)%Q.
Proof.
  unfold Qltb. rewrite negb_true_iff. split.
  - intros H. apply Qnot_le_lt. intros Hle.
    apply Qle_bool_iff in Hle. congruence.
  - intros H. destruct (Qle_bool y x) eqn:E; [|reflexivity].
    apply Qle_bool_iff in E. lra.
Qed.

Lemma Qltb_ge (x y : Q) : Qltb x y = false <-> (y <= x)%Q.
Proof.
  unfold Qltb. rewrite negb_false_iff. apply Qle_bool_iff.
Qed.

Lemma Qgtb_gt (x y : Q) : Qgtb x y = true <-> (y < x)%Q.
Proof. apply Qltb_lt. Qed.

Lemma Qgtb_le (x y : Q) : Qgtb x y = false <-> (x <= y)%Q.
Proof. apply Qltb_ge. Qed.

Lemma Qltb_compat (x x' y y' : Q) :
  (x == x')%Q -> (y == y')%Q -> Qltb x y = Qltb x' y'.
Proof.
  intros Hx Hy. destruct (Qltb x' y') eqn:E.
  - apply Qltb_lt in E. apply Qltb_lt. lra.
  - apply Qltb_ge in E. apply Qltb_ge. lra.
Qed.

(** ** The helpers of [Run] *)

Section RunHelpers.
Import Run.

Lemma playSfx_fields key r :
  score (playSfx key r) = score r /\
  lives (playSfx key r) = lives r /\
  isGameOver (playSfx key r) = isGameOver r /\
  livesLostAnimStart (playSfx key r) = livesLostAnimStart r /\
  deathAnimStart (playSfx key r) = deathAnimStart r /\
  sfx (playSfx key r) = sfx r /\
  perfNow (playSfx key r) = perfNow r.
Proof. unfold playSfx. destruct (has_audio key r); simpl; auto 10. Qed.

Lemma has_audio_playSfx key key' r :
  has_audio key (playSfx key' r) = has_audio key r.
Proof.
  unfold has_audio. destruct (playSfx_fields key' r) as (_&_&_&_&_&->&_).
  reflexivity.
Qed.

Lemma cue_count_playSfx key r :
  has_audio key r = true ->
  cue_count key (playSfx key r) = S (cue_count key r).
Proof.
  intros H. unfold playSfx, cue_count. rewrite H. simpl.
  rewrite filter_app, length_app. simpl.
  rewrite filter_cons_True by apply String.eqb_refl.
  simpl. lia.
Qed.

(** After a call that found the lives depleted, the state is the clamped
    one: no lives, the flag set, the death timer armed. *)
Lemma checkGameOver_depleted r :
  (lives r <= 0)%Q ->
  lives (checkGameOver r) = 0%Q /\
  isGameOver (checkGameOver r) = true /\
  (exists t, deathAnimStart (checkGameOver r) = Some t).
Proof.
  intros H. unfold checkGameOver.
  apply Qgtb_le in H. rewrite H.
  destruct r as [sc lv go ll da sf pl pn]. simpl.
  destruct da as [t|]; simpl; unfold playSfx;
    match goal with |- context [has_audio ?k ?s] => destruct (has_audio k s) end;
    simpl; eauto.
Qed.

(** A state that is already the clamped one goes through [checkGameOver]
    with nothing but the sound call. *)
Lemma checkGameOver_clamped r t :
  lives r = 0%Q -> isGameOver r = true -> deathAnimStart r = Some t ->
  checkGameOver r = playSfx "gameOver" r.
Proof.
  intros Hl Hg Hd. unfold checkGameOver. rewrite Hl. simpl.
  destruct r as [sc lv go ll da sf pl pn]. simpl in *. subst.
  reflexivity.
Qed.

End RunHelpers.

(** ** checkGameOver called again *)

Section CheckGameOverAgain.
Import Run.

Lemma checkGameOver_calls_clamped clock :
  forall r t,
    lives r = 0%Q -> isGameOver r = true -> deathAnimStart r = Some t ->
    let rn := Vocabulary.called_again clock r in
    lives rn = 0%Q /\ isGameOver rn = true /\ deathAnimStart rn = Some t /\
    score rn = score r /\ livesLostAnimStart rn = livesLostAnimStart r /\
    sfx rn = sfx r /\
    played rn = played r ++
                (if has_audio "gameOver" r
                 then repeat "gameOver"%string (length clock) else []).
Proof.
  induction clock as [|t' rest IH]; intros r t Hl Hg Hd; simpl.
  - repeat split; auto.
    destruct (has_audio "gameOver" r); simpl; now rewrite app_nil_r.
  - unfold Vocabulary.called_again in *. simpl.
    set (r' := Vocabulary.checkGameOver_at t' r).
    assert (E : r' = playSfx "gameOver" (set_perfNow t' r))
      by (apply (checkGameOver_clamped _ t); assumption).
    destruct (playSfx_fields "gameOver" (set_perfNow t' r))
      as (Es & El & Eg & Ea & Ed & Ef & _).
    rewrite <- E in Es, El, Eg, Ea, Ed, Ef. simpl in Es, El, Eg, Ea, Ed, Ef.
    destruct (IH r' t) as (IHl & IHg & IHd & IHs & IHa & IHf & IHp);
      [congruence|congruence|congruence|].
    rewrite IHl, IHg, IHd, IHs, IHa, IHf, IHp, Es, Ea, Ef.
    repeat split; auto.
    assert (Ha : has_audio "gameOver" r' = has_audio "gameOver" r)
      by (unfold has_audio; now rewrite Ef).
    rewrite Ha. rewrite E. unfold playSfx.
    change (has_audio "gameOver" (set_perfNow t' r)) with (has_audio "gameOver" r).
    destruct (has_audio "gameOver" r); simpl; [|now rewrite app_nil_r].
    now rewrite <- app_assoc.
Qed.

(** The first call with the lives depleted arms the timer, at the clock
    reading of that call, unless it is armed already. *)
Lemma checkGameOver_arms r :
  (lives r <= 0)%Q ->
  deathAnimStart (checkGameOver r) =
  Some (match deathAnimStart r with Some t => t | None => perfNow r end).
Proof.
  intros H. unfold checkGameOver.
  apply Qgtb_le in H. rewrite H.
  match goal with |- deathAnimStart (playSfx ?k ?s0) = _ =>
    destruct (playSfx_fields k s0) as (_ & _ & _ & _ & -> & _) end.
  destruct r as [sc lv go ll da sf pl pn]. simpl. now destruct da.
Qed.

End CheckGameOverAgain.

Lemma checkGameOver_sfx (r : Run.RunState) :
  Run.sfx (Run.checkGameOver r) = Run.sfx r.
Proof.
  unfold Run.checkGameOver. destruct (Qgtb (Run.lives r) 0); [reflexivity|].
  match goal with |- Run.sfx (Run.playSfx ?k ?s) = _ =>
    destruct (playSfx_fields k s) as (_ & _ & _ & _ & _ & -> & _) end.
  destruct r as [sc lv go ll da sf pl pn]; simpl. now destruct da.
Qed.

(** C1, as the code has it.  Take any run state whose lives are at or below
    zero.  The first call of [checkGameOver] arms the death animation timer
    at the clock reading of that call, unless it was armed before.  Further
    calls, made at whatever later clock readings, leave the timer, the
    lives, the game-over flag and the score as they are; but each of them
    calls [playSfx("gameOver")] again, so with the sound asset loaded the
    cue is played once more per call. *)
Theorem checkGameOver_further_calls (r0 : Run.RunState) (clock : list Q) :
  (Run.lives r0 <= 0)%Q ->
  let r1 := Run.checkGameOver r0 in
  let rn := Vocabulary.called_again clock r1 in
  Run.deathAnimStart r1 =
    Some (match Run.deathAnimStart r0 with
          | Some t => t
          | None => Run.perfNow r0
          end) /\
  Run.deathAnimStart rn = Run.deathAnimStart r1 /\
  Run.lives rn = Run.lives r1 /\
  Run.isGameOver rn = Run.isGameOver r1 /\
  Run.score rn = Run.score r1 /\
  Run.played rn =
    Run.played r1 ++
    (if Run.has_audio "gameOver" r0
     then repeat "gameOver"%string (length clock) else []).
Proof.
  intros H r1 rn.
  destruct (checkGameOver_depleted r0 H) as (Hl & Hg & t & Hd).
  destruct (checkGameOver_calls_clamped clock r1 t Hl Hg Hd)
    as (El & Eg & Ed & Es & _ & _ & Ep).
  fold rn in El, Eg, Ed, Es, Ep.
  split; [exact (checkGameOver_arms r0 H)|].
  rewrite El, Eg, Ed, Es, Ep. fold r1 in Hl, Hg, Hd. rewrite Hl, Hg, Hd.
  repeat split; auto.
  unfold Run.has_audio. unfold r1. now rewrite checkGameOver_sfx.
Qed.

Lemma checkGameOver_further_calls_witness :
  (Run.lives Samples.depleted_run <= 0)%Q /\
  Run.deathAnimStart
    (Vocabulary.called_again [2000; 3000]%Q
       (Run.checkGameOver Samples.depleted_run)) = Some 1000%Q /\
  Run.played
    (Vocabulary.called_again [2000; 3000]%Q
       (Run.checkGameOver Samples.depleted_run))
  = ["bad"; "gameOver"; "gameOver"; "gameOver"]%string.
Proof.
  split.
  - vm_compute. discriminate.
  - destruct (checkGameOver_further_calls Samples.depleted_run [2000; 3000]%Q)
      as (Ha & Hd & _ & _ & _ & Hp).
    + vm_compute. discriminate.
    + split; [rewrite Hd, Ha; reflexivity|rewrite Hp; reflexivity].
Defined.

(** C1 as stated fails: on a state whose lives are below zero, the second
    call of [checkGameOver] plays the game-over cue a second time. *)
Lemma checkGameOver_plays_cue_again :
  (Run.lives Samples.depleted_run <= 0)%Q /\
  Run.cue_count "gameOver" (Run.checkGameOver Samples.depleted_run) = 1%nat /\
  Run.cue_count "gameOver"
    (Run.checkGameOver (Run.checkGameOver Samples.depleted_run)) = 2%nat /\
  Run.cue_count "gameOver"
    (Run.checkGameOver (Run.checkGameOver Samples.depleted_run)) <>
  Run.cue_count "gameOver" (Run.checkGameOver Samples.depleted_run).
Proof.
  repeat split; try (vm_compute; discriminate); vm_compute; reflexivity.
Qed.

(** ** Session storage and the handshake *)

Section Handshake.
Import Cookies Vocabulary.

Lemma getItem_setItem_eq k v s : getItem k (setItem k v s) = Some v.
Proof. unfold getItem, setItem. simpl. apply lookup_insert_eq. Qed.

Lemma getItem_setItem_ne k k' v s :
  k <> k' -> getItem k' (setItem k v s) = getItem k' s.
Proof. intros H. unfold getItem, setItem. simpl. now apply lookup_insert_ne. Qed.

Lemma has_blank_score_key u : has_blank (u +:+ " score") = true.
Proof.
  induction u as [|c u IH]; [reflexivity|].
  simpl. rewrite IH. apply orb_true_r.
Qed.

(** The per-player score item never is one of the three handshake items. *)
Lemma score_key_not_handshake u k :
  has_blank k = false -> u +:+ " score" <> k.
Proof.
  intros Hk E. rewrite <- E, has_blank_score_key in Hk. discriminate.
Qed.

Lemma getItem_set_score_session u sc k s :
  has_blank k = false ->
  getItem k (set_score_session u sc s) = getItem k s.
Proof.
  intros Hk. unfold set_score_session.
  apply getItem_setItem_ne. now apply score_key_not_handshake.
Qed.

Lemma release_ready s :
  getItem "game_state_boolean" (release_game_state s) = Some "false"%string.
Proof.
  unfold release_game_state.
  rewrite !getItem_setItem_ne by discriminate.
  apply getItem_setItem_eq.
Qed.

Lemma strict_eq_true v lit : strict_eq v lit = true <-> v = Some lit.
Proof.
  destruct v as [x|]; simpl.
  - rewrite String.eqb_eq. split; congruence.
  - split; discriminate.
Qed.

(** The three ways [increment_game_state] can go. *)
Lemma increment_inactive u sc s :
  getItem "game_state_boolean" s = Some "false"%string ->
  increment_game_state u sc s =
  (Some {| friendLost := false; friendUser := None; friendScore := None |},
   setItem "game_state_score" (String_of_Z sc)
     (setItem "game_state_user" u (setItem "game_state_boolean" "true" s))).
Proof. intros H. unfold increment_game_state. now rewrite H. Qed.

Lemma increment_active u sc s :
  getItem "game_state_boolean" s = Some "true"%string ->
  increment_game_state u sc s =
  (Some {| friendLost := true;
           friendUser := getItem "game_state_user" s;
           friendScore := getItem "game_state_score" s |},
   setItem "game_state_boolean" "true" s).
Proof.
  intros H. unfold increment_game_state. rewrite H. simpl.
  now rewrite !getItem_setItem_ne by discriminate.
Qed.

Lemma increment_unset u sc s :
  ~ handshake_ready s ->
  increment_game_state u sc s = (None, setItem "game_state_boolean" "true" s).
Proof.
  intros H. unfold increment_game_state.
  destruct (strict_eq _ "false") eqn:E1.
  { apply strict_eq_true in E1. exfalso. apply H. now right. }
  destruct (strict_eq _ "true") eqn:E2.
  { apply strict_eq_true in E2. exfalso. apply H. now left. }
  reflexivity.
Qed.

Lemma handshake_ready_dec s : handshake_ready s \/ ~ handshake_ready s.
Proof.
  unfold handshake_ready.
  destruct (getItem "game_state_boolean" s) as [v|].
  - destruct (String.eqb_spec v "true"); [subst; now left; left|].
    destruct (String.eqb_spec v "false"); [subst; now left; right|].
    right. intros [H|H]; congruence.
  - right. intros [H|H]; discriminate.
Qed.

Lemma increment_sets_flag u sc s :
  getItem "game_state_boolean" (snd (increment_game_state u sc s))
  = Some "true"%string.
Proof.
  unfold increment_game_state.
  destruct (strict_eq _ "false"); [|destruct (strict_eq _ "true")]; simpl;
    rewrite ?getItem_setItem_ne by discriminate; apply getItem_setItem_eq.
Qed.

End Handshake.

(** ** The game-over transition *)

Section GameOverTransition.
Import Cookies Engine Vocabulary.

Lemma ready_set_score_session u sc s :
  handshake_ready (set_score_session u sc s) <-> handshake_ready s.
Proof.
  unfold handshake_ready. now rewrite getItem_set_score_session.
Qed.

Lemma gameOver_dead upd g e :
  dead g = true -> gameOver upd g e = (Normal, g, e).
Proof. intros H. unfold gameOver. now rewrite H. Qed.

(** First arrival: the flag reads "false". *)
Lemma gameOver_inactive upd g e :
  dead g = false ->
  getItem "game_state_boolean" (session e) = Some "false"%string ->
  gameOver upd g e =
  (Normal, set_dead true g,
   let e2 :=
     set_session
       (setItem "game_state_score" (String_of_Z (Run.score (run g)))
          (setItem "game_state_user" (user g)
             (setItem "game_state_boolean" "true"
                (set_score_session (user g) (Run.score (run g)) (session e)))))
       e in
   if numberOfPlayers g =? 1 then
     setTimeout {| delay := 2000; owner := user g; update := upd;
                   myUserFriend := None; myUserFriendScore := None |} e2
   else e2).
Proof.
  intros Hd Hf. unfold gameOver. rewrite Hd. simpl.
  rewrite increment_inactive
    by (now rewrite getItem_set_score_session).
  simpl. rewrite orb_false_r.
  now destruct (numberOfPlayers g =? 1).
Qed.

(** Second arrival: the flag reads "true". *)
Lemma gameOver_active upd g e :
  dead g = false ->
  getItem "game_state_boolean" (session e) = Some "true"%string ->
  gameOver upd g e =
  (Normal, set_dead true g,
   setTimeout
     {| delay := 2000; owner := user g; update := upd;
        myUserFriend := getItem "game_state_user" (session e);
        myUserFriendScore := getItem "game_state_score" (session e) |}
     (set_session
        (setItem "game_state_boolean" "true"
           (set_score_session (user g) (Run.score (run g)) (session e)))
        e)).
Proof.
  intros Hd Hf. unfold gameOver. rewrite Hd. simpl.
  rewrite increment_active
    by (now rewrite getItem_set_score_session).
  simpl. rewrite orb_true_r.
  now rewrite !getItem_set_score_session.
Qed.

(** The flag holds neither string: the index into [undefined] raises. *)
Lemma gameOver_unset upd g e :
  dead g = false ->
  ~ handshake_ready (session e) ->
  gameOver upd g e =
  (TypeError, set_dead true g,
   set_session
     (setItem "game_state_boolean" "true"
        (set_score_session (user g) (Run.score (run g)) (session e)))
     e).
Proof.
  intros Hd Hf. unfold gameOver. rewrite Hd. simpl.
  rewrite increment_unset; [reflexivity|].
  now rewrite ready_set_score_session.
Qed.

(** [gameOver] completes normally exactly when it is re-entered or finds
    the flag initialised. *)
Lemma gameOver_normal_iff upd g e :
  dead g = false ->
  completion_of (gameOver upd g e) = Normal <-> handshake_ready (session e).
Proof.
  intros Hd. destruct (handshake_ready_dec (session e)) as [[H|H]|H].
  - rewrite (gameOver_active upd g e Hd H). simpl. split; auto. intros _. now left.
  - rewrite (gameOver_inactive upd g e Hd H). simpl. split; auto. intros _. now right.
  - rewrite (gameOver_unset upd g e Hd H). simpl. split; [discriminate|tauto].
Qed.

(** Whatever [gameOver] does, the flag is initialised afterwards if it was
    before, and the instance is marked dead. *)
Lemma gameOver_keeps_ready upd g e :
  handshake_ready (session e) ->
  handshake_ready (session (env_of (gameOver upd g e))).
Proof.
  intros H. destruct (dead g) eqn:Hd.
  - now rewrite gameOver_dead.
  - destruct H as [H|H].
    + rewrite (gameOver_active upd g e Hd H). simpl. left.
      apply getItem_setItem_eq.
    + rewrite (gameOver_inactive upd g e Hd H). simpl. left.
      destruct (numberOfPlayers g =? 1); simpl;
        rewrite !getItem_setItem_ne by discriminate; apply getItem_setItem_eq.
Qed.

Lemma gameOver_marks_dead upd g e :
  dead (game_of (gameOver upd g e)) = true.
Proof.
  destruct (dead g) eqn:Hd.
  - now rewrite gameOver_dead.
  - destruct (handshake_ready_dec (session e)) as [[H|H]|H].
    + now rewrite (gameOver_active upd g e Hd H).
    + now rewrite (gameOver_inactive upd g e Hd H).
    + now rewrite (gameOver_unset upd g e Hd H).
Qed.

Lemma restart_fields reply g e :
  let g' := fst (restart reply g e) in
  let e' := snd (restart reply g e) in
  dead g' = false /\ gameOverAlreadyHandled g' = false /\
  Run.isGameOver (run g') = false /\ gameStarted g' = true /\
  Run.score (run g') = 0 /\ Run.lives (run g') = 3%Q /\ notes g' = [] /\
  difficultyLevel g' = 1 /\
  getItem "game_state_boolean" (session e') = Some "false"%string.
Proof.
  unfold restart, resetStateToDefaults, startDifficultyRamp, setInterval.
  simpl.
  destruct (get_name reply (user g) (release_game_state (session e)))
    as [nm s1] eqn:E.
  simpl. repeat split; try reflexivity.
  unfold get_name in E.
  destruct (getItem (user g) (release_game_state (session e))) eqn:En.
  - inversion E; subst. apply release_ready.
  - unfold change_name in E. inversion E; subst. clear E.
    destruct (String.eqb_spec (user g) "game_state_boolean") as [Eu|Eu].
    + exfalso. rewrite Eu, release_ready in En. discriminate.
    + rewrite getItem_setItem_ne by assumption. apply release_ready.
Qed.

End GameOverTransition.

(** ** The note loop *)

Section NoteLoop.
Import NoteTypes Engine Vocabulary.

Variables H paddleX paddleY paddleW paddleH : Q.

Lemma sweep_app a b r :
  sweep H paddleX paddleY paddleW paddleH (a ++ b) r =
  let '(b', r1) := sweep H paddleX paddleY paddleW paddleH b r in
  let '(a', r2) := sweep H paddleX paddleY paddleW paddleH a r1 in
  (a' ++ b', r2).
Proof.
  induction a as [|n0 a IH]; simpl.
  - now destruct (sweep H paddleX paddleY paddleW paddleH b r).
  - rewrite IH.
    destruct (sweep H paddleX paddleY paddleW paddleH b r) as [b' r1].
    destruct (sweep H paddleX paddleY paddleW paddleH a r1) as [a' r2].
    destruct (isOut H (NoteTypes.update n0)); [reflexivity|].
    destruct (Run.isGameOver r2); [reflexivity|].
    now destruct (collidesWithRect paddleX paddleY paddleW paddleH
                    (NoteTypes.update n0)).
Qed.

Lemma game_eta g :
  set_run (run g) (set_notes (notes g) g) = g.
Proof. now destruct g. Qed.

End NoteLoop.

Lemma updateNotes_loop_sweep paddleX paddleY paddleW paddleH a :
  forall b g,
    Engine.notes g = a ++ b ->
    Engine.updateNotes_loop paddleX paddleY paddleW paddleH (length a) g =
    (Engine.Normal,
     let '(a', r') :=
       Vocabulary.sweep (Engine.canvas_height g) paddleX paddleY paddleW paddleH
         a (Engine.run g) in
     Engine.set_run r' (Engine.set_notes (a' ++ b) g)).
Proof.
  induction a as [|n0 a IH] using rev_ind; intros b g Hn.
  - simpl in *. rewrite <- Hn. now rewrite game_eta.
  - rewrite length_app. simpl. rewrite Nat.add_1_r. simpl.
    rewrite <- app_assoc in Hn. simpl in Hn.
    rewrite Hn, list_lookup_middle by reflexivity.
    rewrite insert_app_r_alt, Nat.sub_diag by reflexivity. simpl.
    unfold Engine.splice1. simpl. rewrite delete_middle.
    rewrite sweep_app. simpl.
    destruct (NoteTypes.isOut (Engine.canvas_height g) (NoteTypes.update n0)).
    { rewrite (IH b) by reflexivity. simpl.
      destruct (Vocabulary.sweep _ _ _ _ _ a (Engine.run g)) as [a' r'].
      now rewrite app_nil_r. }
    destruct (Run.isGameOver (Engine.run g)).
    { rewrite (IH (NoteTypes.update n0 :: b)) by reflexivity. simpl.
      destruct (Vocabulary.sweep _ _ _ _ _ a (Engine.run g)) as [a' r'].
      now rewrite <- app_assoc. }
    destruct (NoteTypes.collidesWithRect _ _ _ _ (NoteTypes.update n0)).
    { unfold Engine.applyCollisionEffects. simpl.
      destruct (NoteTypes.type n0) as [t|]; simpl;
        rewrite delete_middle, (IH b) by reflexivity; simpl;
        match goal with |- context [Vocabulary.sweep ?h ?a1 ?a2 ?a3 ?a4 ?l ?r] =>
          destruct (Vocabulary.sweep h a1 a2 a3 a4 l r) as [a' r'] end;
        now rewrite app_nil_r. }
    rewrite (IH (NoteTypes.update n0 :: b)) by reflexivity. simpl.
    destruct (Vocabulary.sweep _ _ _ _ _ a (Engine.run g)) as [a' r'].
    now rewrite <- app_assoc.
Qed.

(** [updateNotes] never reads past its array: it completes normally, with
    the array and the run state the structural form computes; every other
    field of the game is as before. *)
Lemma updateNotes_sweep g :
  Engine.updateNotes g =
  (Engine.Normal,
   let '(l', r') :=
     Vocabulary.sweep (Engine.canvas_height g) (Engine.caracterX g)
       (Engine.canvas_height g - Engine.caracterHeight g)%Q
       (Engine.caracterWidth g) (Engine.caracterHeight g)
       (Engine.notes g) (Engine.run g) in
   Engine.set_run r' (Engine.set_notes l' g)).
Proof.
  unfold Engine.updateNotes.
  rewrite (updateNotes_loop_sweep _ _ _ _ (Engine.notes g) [] g)
    by now rewrite app_nil_r.
  destruct (Vocabulary.sweep _ _ _ _ _ _ _) as [l' r'].
  now rewrite app_nil_r.
Qed.

Lemma sweep_game_over H px py pw ph l r :
  Run.isGameOver r = true ->
  Vocabulary.sweep H px py pw ph l r =
  (filter (fun n => NoteTypes.isOut H n = false) (map NoteTypes.update l), r).
Proof.
  intros Hr. induction l as [|n0 l IH]; [reflexivity|].
  simpl. rewrite IH, Hr.
  destruct (NoteTypes.isOut H (NoteTypes.update n0)) eqn:E.
  - now rewrite filter_cons_False by (rewrite E; discriminate).
  - now rewrite filter_cons_True by assumption.
Qed.

(** C6.  Once [isGameOver] is set, a call of [updateNotes] completes
    normally and changes nothing but the note array: score, lives, timers
    and sounds are as before, whatever the notes overlap.  The array it
    leaves holds every note moved down by its fall speed, minus those that
    have left the canvas. *)
Theorem updateNotes_after_game_over (g : Engine.Game) :
  Run.isGameOver (Engine.run g) = true ->
  Engine.updateNotes g =
  (Engine.Normal,
   Engine.set_notes
     (filter (fun n => NoteTypes.isOut (Engine.canvas_height g) n = false)
        (map NoteTypes.update (Engine.notes g)))
     g).
Proof.
  intros Hg. rewrite updateNotes_sweep, sweep_game_over by assumption.
  now destruct g.
Qed.

Lemma updateNotes_after_game_over_witness :
  Run.isGameOver (Engine.run Samples.over_game) = true /\
  NoteTypes.collidesWithRect (Engine.caracterX Samples.over_game)
    (Engine.canvas_height Samples.over_game - Engine.caracterHeight Samples.over_game)%Q
    (Engine.caracterWidth Samples.over_game)
    (Engine.caracterHeight Samples.over_game)
    {| NoteTypes.type := Some Samples.typeF; NoteTypes.w := 80; NoteTypes.h := 80;
       NoteTypes.x := 450; NoteTypes.y := 603; NoteTypes.dy := 3 |} = true /\
  Engine.updateNotes Samples.over_game =
  (Engine.Normal,
   Engine.set_notes
     [ {| NoteTypes.type := Some Samples.typeF; NoteTypes.w := 80; NoteTypes.h := 80;
          NoteTypes.x := 450; NoteTypes.y := 603; NoteTypes.dy := 3 |} ]
     Samples.over_game).
Proof.
  split; [reflexivity|]. split; [reflexivity|].
  rewrite (updateNotes_after_game_over Samples.over_game) by reflexivity.
  reflexivity.
Defined.

(** ** One note over the paddle *)





(** ** Weighted selection *)

Section Selection.
Import NoteTypes Engine Vocabulary.

Lemma computeTotalWeight_snoc pre e :
  computeTotalWeight (pre ++ [e]) =
  (computeTotalWeight pre + weight (info e))%Q.
Proof. unfold computeTotalWeight. now rewrite fold_left_app. Qed.

Lemma cumulative_middle pre e rest :
  cumulative (pre ++ e :: rest) (length pre) =
  (computeTotalWeight pre + weight (info e))%Q.
Proof.
  unfold cumulative.
  replace (take (S (length pre)) (pre ++ e :: rest)) with (pre ++ [e]).
  - apply computeTotalWeight_snoc.
  - rewrite take_app_ge by lia.
    replace (S (length pre) - length pre)%nat with 1%nat by lia.
    reflexivity.
Qed.

(** The loop, entered with the running total of the entries already
    passed, finds the least index whose cumulative weight exceeds [r]. *)
Lemma pick_loop_find r rest :
  forall pre,
    pick_loop r (computeTotalWeight pre) rest =
    match List.find (fun i => Qltb r (cumulative (pre ++ rest) i))
            (seq (length pre) (length rest)) with
    | Some i => (pre ++ rest) !! i
    | None => None
    end.
Proof.
  induction rest as [|e rest IH]; intros pre; [reflexivity|].
  simpl. rewrite cumulative_middle.
  destruct (Qltb r (computeTotalWeight pre + weight (info e))) eqn:E.
  - now rewrite list_lookup_middle.
  - rewrite <- computeTotalWeight_snoc, (IH (pre ++ [e])).
    rewrite <- app_assoc, length_app. simpl.
    now rewrite Nat.add_1_r.
Qed.

Lemma js_index_last {A} (l : list A) :
  js_index l (Z.of_nat (length l) - 1) = last l.
Proof.
  unfold js_index. destruct l as [|a l] using rev_ind; [reflexivity|].
  rewrite length_app, last_snoc. simpl.
  destruct (Z.ltb_spec (Z.of_nat (length l + 1) - 1) 0); [lia|].
  replace (Z.to_nat (Z.of_nat (length l + 1) - 1)) with (length l) by lia.
  now apply list_lookup_middle.
Qed.

Lemma selectNoteType_pick_spec r types :
  selectNoteType r types = pick_spec r types.
Proof.
  unfold selectNoteType, pick_spec, first_exceeding.
  change (pick_loop r 0 types) with (pick_loop r (computeTotalWeight []) types).
  rewrite (pick_loop_find r types []). simpl.
  destruct (List.find _ _) as [i|] eqn:E.
  - destruct (types !! i) eqn:Ei; [reflexivity|].
    apply find_some in E as [Hin _]. apply in_seq in Hin.
    apply lookup_ge_None in Ei. lia.
  - apply js_index_last.
Qed.

(** A registry with at least one entry always yields one of its entries. *)
Lemma selectNoteType_nonempty r types :
  types <> [] -> exists t, selectNoteType r types = Some t /\ In t types.
Proof.
  intros Hne. unfold selectNoteType.
  destruct (pick_loop r 0 types) as [t|] eqn:E.
  - exists t. split; [reflexivity|].
    revert E. generalize 0%Q as sum. induction types as [|e l IH]; [discriminate|].
    simpl. intros sum. destruct (Qltb r _).
    + intros [= ->]. now left.
    + destruct l as [|e' l'].
      * discriminate.
      * intros E. right. apply (IH ltac:(discriminate) _ E).
  - rewrite js_index_last.
    destruct types as [|a l] using rev_ind; [congruence|].
    rewrite last_snoc. exists a. split; [reflexivity|].
    apply in_or_app. right. now left.
Qed.

End Selection.

(** C7.  For every registry and every draw, [getRandomNoteType] adds the
    weights in registry order and returns the first entry whose cumulative
    weight exceeds the draw; when no entry matches, whatever the total
    weight, it returns the value of the last registry slot, which for the
    empty registry is [undefined].  It is a total function: no input makes
    it loop or raise. *)
Theorem getRandomNoteType_first_exceeding (rnd : Q) (g : Engine.Game) :
  Engine.getRandomNoteType rnd g =
  Vocabulary.pick_spec (rnd * Engine.totalWeight g)%Q (Engine.noteTypes g).
Proof. apply selectNoteType_pick_spec. Qed.

(** ** One frame *)

Section Frame.
Import Engine Vocabulary.

Lemma typed_update n : typed n -> typed (NoteTypes.update n).
Proof. intros [t Ht]. now exists t. Qed.

Lemma sweep_typed H px py pw ph l r :
  Forall typed l -> Forall typed (fst (sweep H px py pw ph l r)).
Proof.
  induction 1 as [|n0 l Hn Hl IH]; simpl; [constructor|].
  destruct (sweep H px py pw ph l r) as [l' r1]. simpl in IH.
  destruct (NoteTypes.isOut H (NoteTypes.update n0)); [assumption|].
  destruct (Run.isGameOver r1); simpl.
  { constructor; [now apply typed_update|assumption]. }
  destruct (NoteTypes.collidesWithRect _ _ _ _ _); simpl; [assumption|].
  constructor; [now apply typed_update|assumption].
Qed.

Lemma drawNotes_typed g : Forall typed (notes g) -> drawNotes g = Normal.
Proof.
  intros Hty. unfold drawNotes.
  replace (forallb _ (notes g)) with true; [reflexivity|].
  symmetry. apply forallb_forall. intros n Hin.
  rewrite Forall_forall in Hty.
  destruct (Hty n) as [t Ht]; [now apply list_elem_of_In|]. now rewrite Ht.
Qed.

Lemma spawnNote_typed a b c g :
  noteTypes g <> [] -> Forall typed (notes g) ->
  Forall typed (notes (spawnNote a b c g)).
Proof.
  intros Hne Hty. unfold spawnNote. simpl.
  apply Forall_app. split; [assumption|].
  constructor; [|constructor].
  unfold getRandomNoteType.
  destruct (selectNoteType_nonempty (a * totalWeight g) (noteTypes g) Hne)
    as (t & Ht & _).
  exists t. simpl. exact Ht.
Qed.

Lemma updatePlayer_fields g :
  let g' := updatePlayer g in
  run g' = run g /\ notes g' = notes g /\ user g' = user g /\
  numberOfPlayers g' = numberOfPlayers g /\ noteTypes g' = noteTypes g /\
  dead g' = dead g /\ gameOverAlreadyHandled g' = gameOverAlreadyHandled g.
Proof.
  unfold updatePlayer.
  destruct (Run.isGameOver (run g)); [repeat split|].
  simpl.
  repeat match goal with
         | |- context [if ?c then _ else _] => destruct c
         end; repeat split.
Qed.



(** With typed notes, a frame is its simulation part followed by the
    overlay. *)
Lemma loop_before_overlay i g e :
  noteTypes g <> [] -> Forall typed (notes g) ->
  loop i g e =
  let g4 := before_overlay i g in
  if Run.isGameOver (run g4) then drawGameOver g4 e else (Normal, g4, e).
Proof.
  intros Hne Hty. unfold loop, before_overlay.
  set (ga := set_run (Run.set_perfNow (now i) (run g)) g).
  change (gameStarted ga) with (gameStarted g).
  change (Run.isGameOver (run ga)) with (Run.isGameOver (run g)).
  destruct (negb (gameStarted g) && negb (Run.isGameOver (run g))) eqn:Es.
  { simpl. apply andb_true_iff in Es as [_ Es].
    apply negb_true_iff in Es. now rewrite Es. }
  set (g1 := if negb (Run.isGameOver (run g)) && _ then _ else ga).
  assert (Ht : Forall typed (notes g1)).
  { unfold g1. destruct (negb (Run.isGameOver (run g)) && _); [|assumption].
    now apply spawnNote_typed. }
  rewrite updateNotes_sweep.
  pose proof (sweep_typed (canvas_height g1) (caracterX g1)
                (canvas_height g1 - caracterHeight g1)%Q
                (caracterWidth g1) (caracterHeight g1) (notes g1) (run g1) Ht) as Hsw.
  destruct (sweep _ _ _ _ _ (notes g1) (run g1)) as [l' r'].
  simpl in Hsw.
  rewrite drawNotes_typed.
  - now destruct (Run.isGameOver (run (drawLives _))).
  - destruct (updatePlayer_fields (set_run r' (set_notes l' g1)))
      as (_ & Pn & _). rewrite Pn. exact Hsw.
Qed.

End Frame.

(** ** Counting the persisted scores *)

Section Transition.
Import Cookies Engine Vocabulary.






End Transition.



(** ** Who initialises the handshake *)

Section Initialised.
Import Cookies Engine Vocabulary.

Lemma get_name_keeps_ready reply u s :
  handshake_ready s -> handshake_ready (snd (get_name reply u s)).
Proof.
  intros Hr. unfold get_name.
  destruct (getItem u s) eqn:Eu; [exact Hr|].
  unfold change_name. simpl. unfold handshake_ready in *.
  destruct (String.eqb_spec u "game_state_boolean") as [E|E].
  - subst. rewrite Eu in Hr. now destruct Hr.
  - now rewrite getItem_setItem_ne.
Qed.

(** A frame touches the page through [gameOver] only. *)
Lemma loop_env i g e :
  env_of (loop i g e) = e \/
  exists g', env_of (loop i g e) = env_of (gameOver true g' e).
Proof.
  unfold loop.
  destruct (negb _ && negb _); [now left|].
  destruct (updateNotes _) as [[|] g2]; [|now left].
  destruct (drawNotes _); [|now left].
  destruct (Run.isGameOver _); [|now left].
  unfold drawGameOver. destruct (negb _); [|now left].
  right. eexists. reflexivity.
Qed.

Lemma loop_keeps_ready i g e :
  handshake_ready (session e) ->
  handshake_ready (session (env_of (loop i g e))).
Proof.
  intros Hr. destruct (loop_env i g e) as [-> | [g' ->]]; [exact Hr|].
  now apply gameOver_keeps_ready.
Qed.

Lemma start_ready i reply preview g e :
  handshake_ready (session (env_of (start i reply preview g e))).
Proof.
  unfold start.
  set (e1 := set_session (release_game_state (session e)) e).
  assert (Hr1 : handshake_ready (session e1)) by (right; apply release_ready).
  assert (Hfirst :
    handshake_ready (session (env_of
      (if negb (previewed g)
       then match loop i g e1 with
            | (Normal, g1, e2) => (Normal, set_previewed true g1, e2)
            | stopped => stopped
            end
       else (Normal, g, e1))))).
  { destruct (negb (previewed g)); [|exact Hr1].
    pose proof (loop_keeps_ready i g e1 Hr1) as Hl.
    destruct (loop i g e1) as [[[|] g1] e2]; exact Hl. }
  destruct (if negb (previewed g) then _ else _) as [[[|] g1] e2];
    [|exact Hfirst].
  destruct (negb preview); [|exact Hfirst].
  pose proof (get_name_keeps_ready reply (user g1) (session e2) Hfirst) as Hn.
  destruct (get_name reply (user g1) (session e2)) as [nm s3].
  unfold startDifficultyRamp, setInterval. simpl.
  destruct (difficultyIntervalId g1); exact Hn.
Qed.

End Initialised.

(** C10.  [increment_game_state] returns its three-element array exactly
    when the stored flag is "true" or "false".  With the flag never written
    it returns [undefined] and a first [gameOver] raises on the index into
    it; a first [gameOver] completes exactly when the flag holds one of the
    two strings, which is the case once [release_game_state] has run, as it
    does in [restart] and in [start]. *)
Theorem gameOver_total_iff_handshake_initialised
    (upd : bool) (g : Engine.Game) (e : Engine.Env) :
  Engine.dead g = false ->
  (forall u sc s,
     is_Some (fst (Cookies.increment_game_state u sc s)) <->
     Vocabulary.handshake_ready s) /\
  (Cookies.getItem "game_state_boolean" (Engine.session e) = None ->
   (forall u sc, fst (Cookies.increment_game_state u sc (Engine.session e)) = None) /\
   Vocabulary.completion_of (Engine.gameOver upd g e) = Engine.TypeError) /\
  (Vocabulary.completion_of (Engine.gameOver upd g e) = Engine.Normal <->
   Vocabulary.handshake_ready (Engine.session e)) /\
  Vocabulary.handshake_ready (Cookies.release_game_state (Engine.session e)) /\
  (forall reply,
     Vocabulary.handshake_ready (Engine.session (snd (Engine.restart reply g e)))) /\
  (forall i reply preview,
     Vocabulary.handshake_ready
       (Engine.session (Vocabulary.env_of (Engine.start i reply preview g e)))).
Proof.
  intros Hd.
  assert (Hinc : forall u sc s,
             is_Some (fst (Cookies.increment_game_state u sc s)) <->
             Vocabulary.handshake_ready s).
  { intros u sc s. destruct (handshake_ready_dec s) as [[H|H]|H].
    - rewrite (increment_active u sc s H). simpl. split; [now left|eauto].
    - rewrite (increment_inactive u sc s H). simpl. split; [now right|eauto].
    - rewrite (increment_unset u sc s H). simpl.
      split; [intros [x Hx]; discriminate|tauto]. }
  assert (Hnone : Cookies.getItem "game_state_boolean" (Engine.session e) = None ->
                  ~ Vocabulary.handshake_ready (Engine.session e)).
  { intros E [H|H]; congruence. }
  split; [exact Hinc|]. split.
  { intros E. split.
    - intros u sc. now rewrite increment_unset by auto.
    - now rewrite gameOver_unset by auto. }
  split; [now apply gameOver_normal_iff|].
  split; [right; apply release_ready|].
  split.
  - intros reply. right. apply (restart_fields reply g e).
  - intros i reply preview. apply start_ready.
Qed.

Lemma gameOver_total_iff_handshake_initialised_witness :
  Vocabulary.completion_of
    (Engine.gameOver true (Engine.player1Game 1000 800 1) Engine.emptyEnv)
  = Engine.TypeError /\
  Vocabulary.completion_of
    (Engine.gameOver true (Engine.player1Game 1000 800 1) Samples.released_env)
  = Engine.Normal.
Proof.
  split.
  - destruct (gameOver_total_iff_handshake_initialised true
                (Engine.player1Game 1000 800 1) Engine.emptyEnv eq_refl)
      as (_ & Hnone & _).
    apply Hnone. reflexivity.
  - destruct (gameOver_total_iff_handshake_initialised true
                (Engine.player1Game 1000 800 1) Samples.released_env eq_refl)
      as (_ & _ & Hiff & _).
    apply Hiff. right. vm_compute. reflexivity.
Defined.

(** C3.  Two instances of a two-player run on a page whose handshake was
    released.  The first to reach [gameOver] reads the flag as inactive,
    stores its user and score beside the raised flag and schedules no
    navigation.  The second one reads the flag as active together with the
    first one's user and score and schedules the navigation, 2000 ms ahead,
    whose call of [viewHighscores] carries its own score and the first
    one's.  A single-player instance schedules its navigation, 2000 ms
    ahead, whichever of the two values the flag holds. *)
Theorem gameOver_handshake_protocol :
  (forall (updA updB : bool) (gA gB : Engine.Game) (e : Engine.Env),
     Engine.numberOfPlayers gA = 2 -> Engine.numberOfPlayers gB = 2 ->
     Engine.dead gA = false -> Engine.dead gB = false ->
     Cookies.getItem "game_state_boolean" (Engine.session e) = Some "false"%string ->
     let scoreA := Run.score (Engine.run gA) in
     let resA := Engine.gameOver updA gA e in
     let eA := Vocabulary.env_of resA in
     let resB := Engine.gameOver updB gB eA in
     let nav := {| Engine.delay := 2000; Engine.owner := Engine.user gB;
                   Engine.update := updB;
                   Engine.myUserFriend := Some (Engine.user gA);
                   Engine.myUserFriendScore := Some (String_of_Z scoreA) |} in
     fst (Cookies.increment_game_state (Engine.user gA) scoreA
            (Cookies.set_score_session (Engine.user gA) scoreA (Engine.session e)))
     = Some {| Cookies.friendLost := false; Cookies.friendUser := None;
               Cookies.friendScore := None |} /\
     Vocabulary.completion_of resA = Engine.Normal /\
     Engine.timeouts eA = Engine.timeouts e /\
     Cookies.getItem "game_state_boolean" (Engine.session eA) = Some "true"%string /\
     Cookies.getItem "game_state_user" (Engine.session eA) = Some (Engine.user gA) /\
     Cookies.getItem "game_state_score" (Engine.session eA) = Some (String_of_Z scoreA) /\
     fst (Cookies.increment_game_state (Engine.user gB) (Run.score (Engine.run gB))
            (Cookies.set_score_session (Engine.user gB) (Run.score (Engine.run gB))
               (Engine.session eA)))
     = Some {| Cookies.friendLost := true;
               Cookies.friendUser := Some (Engine.user gA);
               Cookies.friendScore := Some (String_of_Z scoreA) |} /\
     Vocabulary.completion_of resB = Engine.Normal /\
     Engine.timeouts (Vocabulary.env_of resB) = Engine.timeouts e ++ [nav] /\
     forall players,
       snd (Engine.run_timeout players nav (Vocabulary.game_of resB)
              (Vocabulary.env_of resB))
       = {| Engine.nav_numberOfPlayers := players; Engine.nav_update := updB;
            Engine.nav_direct := true; Engine.thisUser := Engine.user gB;
            Engine.thisScore := Run.score (Engine.run gB);
            Engine.nav_myUserFriend := Some (Engine.user gA);
            Engine.nav_myUserFriendScore := Some (String_of_Z scoreA) |}) /\
  (forall (upd : bool) (g : Engine.Game) (e : Engine.Env),
     Engine.numberOfPlayers g = 1 -> Engine.dead g = false ->
     Vocabulary.handshake_ready (Engine.session e) ->
     let res := Engine.gameOver upd g e in
     Vocabulary.completion_of res = Engine.Normal /\
     exists friend friendScore,
       Engine.timeouts (Vocabulary.env_of res) =
       Engine.timeouts e ++
       [ {| Engine.delay := 2000; Engine.owner := Engine.user g;
            Engine.update := upd; Engine.myUserFriend := friend;
            Engine.myUserFriendScore := friendScore |} ]).
Proof.
  split.
  - intros updA updB gA gB e HpA HpB HdA HdB Hf scoreA resA eA resB nav.
    assert (HeA : resA =
      (Engine.Normal, Engine.set_dead true gA,
       Engine.set_session
         (Cookies.setItem "game_state_score" (String_of_Z scoreA)
            (Cookies.setItem "game_state_user" (Engine.user gA)
               (Cookies.setItem "game_state_boolean" "true"
                  (Cookies.set_score_session (Engine.user gA) scoreA
                     (Engine.session e))))) e)).
    { unfold resA. rewrite (gameOver_inactive updA gA e HdA Hf), HpA. reflexivity. }
    assert (HfA : Cookies.getItem "game_state_boolean" (Engine.session eA)
                  = Some "true"%string).
    { unfold eA. rewrite HeA. simpl.
      rewrite !getItem_setItem_ne by discriminate. apply getItem_setItem_eq. }
    assert (HuA : Cookies.getItem "game_state_user" (Engine.session eA)
                  = Some (Engine.user gA)).
    { unfold eA. rewrite HeA. simpl.
      rewrite !getItem_setItem_ne by discriminate. apply getItem_setItem_eq. }
    assert (HsA : Cookies.getItem "game_state_score" (Engine.session eA)
                  = Some (String_of_Z scoreA)).
    { unfold eA. rewrite HeA. simpl. apply getItem_setItem_eq. }
    assert (HeB : resB =
      (Engine.Normal, Engine.set_dead true gB,
       Engine.setTimeout nav
         (Engine.set_session
            (Cookies.setItem "game_state_boolean" "true"
               (Cookies.set_score_session (Engine.user gB)
                  (Run.score (Engine.run gB)) (Engine.session eA))) eA))).
    { unfold resB. rewrite (gameOver_active updB gB eA HdB HfA), HuA, HsA.
      reflexivity. }
    split.
    { rewrite increment_inactive; [reflexivity|].
      now rewrite getItem_set_score_session. }
    split; [now rewrite HeA|].
    split; [unfold eA; now rewrite HeA|].
    split; [exact HfA|]. split; [exact HuA|]. split; [exact HsA|].
    split.
    { rewrite increment_active by (now rewrite getItem_set_score_session).
      simpl. now rewrite !getItem_set_score_session, HuA, HsA. }
    split; [now rewrite HeB|].
    split.
    { rewrite HeB. simpl. unfold eA. now rewrite HeA. }
    intros players. rewrite HeB. simpl.
    unfold Engine.run_timeout, Engine.stopDifficultyRamp. simpl.
    now destruct (Engine.difficultyIntervalId gB).
  - intros upd g e Hp Hd [Hf|Hf] res; unfold res.
    + rewrite (gameOver_active upd g e Hd Hf). simpl.
      split; [reflexivity|]. eauto.
    + rewrite (gameOver_inactive upd g e Hd Hf), Hp. simpl.
      split; [reflexivity|]. eauto.
Qed.

Lemma gameOver_handshake_protocol_witness :
  let resA := Engine.gameOver true Samples.p1_of_two Samples.released_env in
  let resB := Engine.gameOver true Samples.p2_of_two (Vocabulary.env_of resA) in
  let res1 := Engine.gameOver true Samples.p1_alone Samples.released_env in
  Engine.timeouts (Vocabulary.env_of resA) = [] /\
  Engine.timeouts (Vocabulary.env_of resB) =
    [ {| Engine.delay := 2000; Engine.owner := "Player 2"; Engine.update := true;
         Engine.myUserFriend := Some "Player 1"%string;
         Engine.myUserFriendScore := Some "150"%string |} ] /\
  length (Engine.timeouts (Vocabulary.env_of res1)) = 1%nat.
Proof.
  destruct gameOver_handshake_protocol as [Htwo Hone].
  destruct (Htwo true true Samples.p1_of_two Samples.p2_of_two Samples.released_env)
    as (_ & _ & HtA & _ & _ & _ & _ & _ & HtB & _);
    try reflexivity.
  destruct (Hone true Samples.p1_alone Samples.released_env)
    as (_ & f & fs & Ht1); try reflexivity.
  { right. reflexivity. }
  split; [exact HtA|]. split; [exact HtB|].
  simpl. rewrite Ht1. reflexivity.
Defined.

(** ** Restart and the difficulty ramp *)

(** [restart] never clears a timer: it adds one to whatever is live. *)
Lemma restart_adds_ticker reply g e :
  Engine.intervals (snd (Engine.restart reply g e)) =
  Engine.intervals e ++ [(Engine.nextId e, Engine.user g)].
Proof.
  unfold Engine.restart, Engine.resetStateToDefaults.
  destruct (Cookies.get_name _ _ _) as [nm s1]. reflexivity.
Qed.

(** C2 on the code.  After a two-player run in which player 1 lost first,
    [restart] resets score, lives and notes, but the difficulty timer of the
    previous run is still live beside the new one: one 5-second period
    raises the difficulty level from 1 to 3. *)
Theorem restart_leaves_prior_ticker_running :
  let g := fst Samples.restarted_after_two_player_run in
  let e := snd Samples.restarted_after_two_player_run in
  Run.score (Engine.run g) = 0 /\
  Run.lives (Engine.run g) = 3%Q /\
  Engine.notes g = [] /\
  Engine.gameStarted g = true /\
  Engine.difficultyLevel g = 1 /\
  Engine.difficultyIntervalId g = Some 4%nat /\
  Engine.intervals e = [(1%nat, "Player 1"%string); (4%nat, "Player 1"%string)] /\
  Engine.difficultyLevel (Engine.interval_elapsed e g) = 3.
Proof. vm_compute. repeat split; reflexivity. Qed.

(** ** Highscores *)

Section Highscores.
Import Cookies.

Lemma insert_desc_length p l : length (insert_desc p l) = S (length l).
Proof.
  induction l as [|q r IH]; simpl; [reflexivity|].
  destruct (score q <=? score p); simpl; lia.
Qed.

Lemma sort_desc_length l : length (sort_desc l) = length l.
Proof.
  induction l as [|p l IH]; simpl; [reflexivity|].
  now rewrite insert_desc_length, IH.
Qed.

Lemma insert_desc_sorted p l :
  Sorted (fun a b => score b <= score a) l ->
  Sorted (fun a b => score b <= score a) (insert_desc p l).
Proof.
  induction 1 as [|q r Hs IH Hhd]; simpl.
  - repeat constructor.
  - destruct (Z.leb_spec (score q) (score p)).
    + constructor; [now constructor|]. now constructor.
    + constructor; [assumption|].
      destruct r as [|q' r']; simpl.
      * constructor. lia.
      * destruct (score q' <=? score p); constructor; [lia|].
        now inversion Hhd.
Qed.

Lemma sort_desc_sorted l :
  Sorted (fun a b => score b <= score a) (sort_desc l).
Proof.
  induction l as [|p l IH]; simpl; [constructor|].
  now apply insert_desc_sorted.
Qed.

(** What [update_highscores] stores: every old entry and the new one,
    sorted; the list grows by one on each call. *)
Lemma update_highscores_stored reply u sc s :
  get_highscores (update_highscores reply u sc s) =
  sort_desc (get_highscores s ++
             [ {| name := fst (get_name reply u s); score := sc |} ]).
Proof.
  unfold update_highscores. now destruct (get_name reply u s).
Qed.

Lemma update_highscores_length reply u sc s :
  length (get_highscores (update_highscores reply u sc s)) =
  S (length (get_highscores s)).
Proof.
  rewrite update_highscores_stored, sort_desc_length, length_app.
  simpl. lia.
Qed.

Lemma update_highscores_sorted reply u sc s :
  Sorted (fun a b => score b <= score a)
    (get_highscores (update_highscores reply u sc s)).
Proof. rewrite update_highscores_stored. apply sort_desc_sorted. Qed.

End Highscores.

(** C8 on the code.  With ten entries stored, [update_highscores] stores
    eleven: the sorted list is persisted whole, above [HIGHSCORE_LIMIT]. *)
Theorem update_highscores_exceeds_limit :
  let s := Cookies.update_highscores None "Player 1" 550 Samples.ten_highscores in
  length (Cookies.get_highscores Samples.ten_highscores) = 10%nat /\
  map Cookies.score (Cookies.get_highscores s) =
    [900; 800; 700; 600; 550; 500; 400; 300; 200; 100; 50] /\
  length (Cookies.get_highscores s) = 11%nat /\
  (Cookies.HIGHSCORE_LIMIT < length (Cookies.get_highscores s))%nat.
Proof. vm_compute. repeat split; reflexivity || lia. Qed.

(** ** The paddle *)

Lemma updatePlayer_frozen g :
  Run.isGameOver (Engine.run g) = true -> Engine.updatePlayer g = g.
Proof. intros H. unfold Engine.updatePlayer. now rewrite H. Qed.

(** The guard is tested before the step of 10, so the paddle can end up to
    one step (exclusive) outside the canvas, never further. *)
Lemma updatePlayer_within_a_step g :
  (- 10 < Engine.caracterX g < Engine.canvas_width g - Engine.caracterWidth g + 10)%Q ->
  (- 10 < Engine.caracterX (Engine.updatePlayer g)
        < Engine.canvas_width g - Engine.caracterWidth g + 10)%Q.
Proof.
  intros Hx. unfold Engine.updatePlayer.
  destruct (Run.isGameOver (Engine.run g)); [exact Hx|].
  destruct (Qltb (Engine.caracterX g)
              (Engine.canvas_width g - Engine.caracterWidth g)) eqn:Er;
    destruct (Qgtb (Engine.caracterX g) 0) eqn:El;
    try (apply Qltb_lt in Er); try (apply Qgtb_gt in El);
    destruct (Engine.rightPressed g); destruct (Engine.leftPressed g);
    destruct (Engine.directionToken g); simpl; lra.
Qed.

(** C9 on the code.  Player 1 alone on the 1000 pixel canvas, restarted
    (paddle at 425) and holding the right key: after 43 movement updates the
    paddle is at 855, beyond [canvasWidth - paddleWidth = 850]; the update
    taken at 845 has put it there. *)
Theorem updatePlayer_overshoots_right_edge :
  let g := Samples.right_held_game in
  Run.isGameOver (Engine.run g) = false /\
  (Engine.caracterX g == 425)%Q /\
  (Engine.canvas_width g - Engine.caracterWidth g == 850)%Q /\
  (Engine.caracterX (Nat.iter 42 Engine.updatePlayer g) == 845)%Q /\
  (Engine.caracterX (Nat.iter 43 Engine.updatePlayer g) == 855)%Q /\
  ~ (Engine.caracterX (Nat.iter 43 Engine.updatePlayer g)
     <= Engine.canvas_width g - Engine.caracterWidth g)%Q.
Proof.
  vm_compute. repeat split; try reflexivity. intros H. apply H. reflexivity.
Qed.

(** ** The embedding on concrete inputs *)

Example String_of_Z_sentinel : String_of_Z (-42) = "-42"%string.
Proof. reflexivity. Qed.

Example trim_both_ends : Cookies.trim "  Ann B  " = "Ann B"%string.
Proof. reflexivity. Qed.

Example change_name_cancelled :
  fst (Cookies.change_name None "Player 1" (Engine.session Engine.emptyEnv))
  = "Player 1"%string.
Proof. reflexivity. Qed.

Example change_name_cut_to_12 :
  fst (Cookies.change_name (Some " Bartholomew the 2nd "%string) "Player 2"
         (Engine.session Engine.emptyEnv))
  = "Bartholomew "%string.
Proof. reflexivity. Qed.

Example toUpperCase_name : Engine.toUpperCase "Player 1" = "PLAYER 1"%string.
Proof. reflexivity. Qed.

(** The sort is stable: of two entries with the same score the one that was
    first in the array stays first. *)
Example sort_desc_stable :
  Cookies.sort_desc
    [ {| Cookies.name := "a"; Cookies.score := 10 |};
      {| Cookies.name := "b"; Cookies.score := 30 |};
      {| Cookies.name := "c"; Cookies.score := 10 |} ]
  = [ {| Cookies.name := "b"; Cookies.score := 30 |};
      {| Cookies.name := "a"; Cookies.score := 10 |};
      {| Cookies.name := "c"; Cookies.score := 10 |} ].
Proof. reflexivity. Qed.

(** Selection over the registry of the game: a draw of 0.04 falls under the
    weight 0.05 of A; a draw of 0.30 passes A (0.05), B (0.15) and C (0.30,
    not exceeded) and stops at D; a draw equal to the total weight matches
    no entry and yields the last one, F. *)
Example select_A :
  option_map (fun t => NoteTypes.name (NoteTypes.info t))
    (Engine.selectNoteType (4 # 100) NoteTypes.buildNoteTypes) = Some "A"%string.
Proof. reflexivity. Qed.

Example select_D :
  option_map (fun t => NoteTypes.name (NoteTypes.info t))
    (Engine.selectNoteType (30 # 100) NoteTypes.buildNoteTypes) = Some "D"%string.
Proof. reflexivity. Qed.

Example select_fallback_last :
  option_map (fun t => NoteTypes.name (NoteTypes.info t))
    (Engine.selectNoteType 1 NoteTypes.buildNoteTypes) = Some "F"%string.
Proof. reflexivity. Qed.

Example select_empty_registry (r : Q) : Engine.selectNoteType r [] = None.
Proof. reflexivity. Qed.

(** Weights summing to zero or less: no cumulative weight exceeds the draw
    0, and the last entry comes back. *)
Example select_nonpositive_total :
  let types := [ NoteTypes.makeNoteType "P" "p.png" (1 # 2) 1 0 NoteTypes.onCatchGood;
                 NoteTypes.makeNoteType "N" "n.png" (- 1) 2 0 NoteTypes.onCatchGood ] in
  (Engine.computeTotalWeight types == - (1 # 2))%Q /\
  option_map (fun t => NoteTypes.name (NoteTypes.info t))
    (Engine.selectNoteType ((3 # 4) * Engine.computeTotalWeight types) types)
  = Some "P"%string /\
  option_map (fun t => NoteTypes.name (NoteTypes.info t))
    (Engine.selectNoteType 0
       [ NoteTypes.makeNoteType "Z" "z.png" 0 0 0 NoteTypes.onCatchGood ])
  = Some "Z"%string.
Proof. repeat split. Qed.

(** The total weight of the registry of the game is 1. *)
Example buildNoteTypes_total :
  (Engine.computeTotalWeight NoteTypes.buildNoteTypes == 1)%Q.
Proof. reflexivity. Qed.

(** A caught F at half a life: lives clamp to 0, the game is over, the death
    timer is armed with the clock reading, the sounds are "bad" then
    "gameOver". *)
Example catch_F_at_half_life :
  let r := NoteTypes.onCatchBad
             (Run.set_perfNow 1234 (Run.set_lives (1 # 2)
                (Engine.run (Engine.player1Game 1000 800 1))))
             (NoteTypes.info Samples.typeF) in
  Run.lives r = 0%Q /\ Run.isGameOver r = true /\
  Run.deathAnimStart r = Some 1234%Q /\
  Run.livesLostAnimStart r = Some 1234%Q /\
  Run.played r = ["bad"; "gameOver"]%string.
Proof. repeat split. Qed.

(* ===================================================================== *)
(** * Further properties of the code *)
(* ===================================================================== *)

(** ** cookies.js: scores and names *)

Section StoredScores.
Import Cookies.

Lemma string_length_append a b :
  String.length (a +:+ b) = (String.length a + String.length b)%nat.
Proof. induction a as [|c a IH]; simpl; [reflexivity|]. now rewrite IH. Qed.

Lemma append_suffix_inj u u' suf : u +:+ suf = u' +:+ suf -> u = u'.
Proof.
  revert u'. induction u as [|c u IH]; intros [|c' u'] E; simpl in E.
  - reflexivity.
  - apply (f_equal String.length) in E.
    rewrite !string_length_append in E. simpl in E.
    rewrite ?string_length_append in E. lia.
  - apply (f_equal String.length) in E.
    rewrite !string_length_append in E. simpl in E.
    rewrite ?string_length_append in E. lia.
  - injection E as -> E. f_equal. now apply IH.
Qed.

End StoredScores.

(** X1.  A score written with [set_score_session] is read back by
    [get_score_session] as the string of that number; the score of any
    other user is what it was; a user with no stored score reads as the
    number -42. *)
Theorem score_session_round_trip (u u' : string) (sc : Z) (s : Cookies.Session) :
  u' <> u ->
  Cookies.get_score_session u (Cookies.set_score_session u sc s)
    = inr (String_of_Z sc) /\
  Cookies.get_score_session u' (Cookies.set_score_session u sc s)
    = Cookies.get_score_session u' s /\
  (Cookies.getItem (u' +:+ " score") s = None ->
   Cookies.get_score_session u' (Cookies.set_score_session u sc s) = inl (-42)).
Proof.
  intros Hne. unfold Cookies.get_score_session, Cookies.set_score_session.
  rewrite getItem_setItem_eq.
  rewrite getItem_setItem_ne
    by (intros E; apply Hne; symmetry; now apply (append_suffix_inj _ _ " score")).
  repeat split. intros ->. reflexivity.
Qed.

Lemma score_session_round_trip_witness :
  Cookies.get_score_session "Player 1"
    (Cookies.set_score_session "Player 1" 150 (Engine.session Engine.emptyEnv))
    = inr "150"%string /\
  Cookies.get_score_session "Player 2"
    (Cookies.set_score_session "Player 1" 150 (Engine.session Engine.emptyEnv))
    = inl (-42).
Proof.
  destruct (score_session_round_trip "Player 1" "Player 2" 150
              (Engine.session Engine.emptyEnv)) as (H1 & _ & H3);
    [discriminate|].
  split; [exact H1|]. apply H3. reflexivity.
Defined.

Section Names.
Import Cookies Invariants.

Lemma substring_0_length n s : (String.length (substring 0 n s) <= n)%nat.
Proof.
  revert s. induction n as [|n IH]; intros [|c s]; simpl; try lia.
  specialize (IH s). lia.
Qed.

Lemma trim_left_no_leading_space s : no_leading_space (trim_left s).
Proof.
  induction s as [|c s IH]; simpl; [exact I|].
  destruct (is_space c) eqn:E; [exact IH|]. exact E.
Qed.

Lemma trim_right_head s :
  no_leading_space s -> no_leading_space (trim_right s).
Proof.
  destruct s as [|c s]; simpl; [auto|]. intros Hc.
  destruct (trim_right s); [|exact Hc].
  rewrite Hc. exact Hc.
Qed.

Lemma substring_0_head n s :
  no_leading_space s -> no_leading_space (substring 0 n s).
Proof. destruct n, s; simpl; auto. Qed.

End Names.

(** X2.  Whatever is typed into the prompt, the name [change_name] returns
    has at most 12 characters and no leading white space, it is stored
    under the user's key and nothing else is touched; a later [get_name]
    returns that name without prompting (its storage is unchanged, whatever
    the prompt would answer). *)
Theorem change_name_stores_short_name
    (reply reply' : option string) (u k : string) (s : Cookies.Session) :
  k <> u ->
  let nm := fst (Cookies.change_name reply u s) in
  let s1 := snd (Cookies.change_name reply u s) in
  (String.length nm <= 12)%nat /\
  Invariants.no_leading_space nm /\
  Cookies.getItem u s1 = Some nm /\
  Cookies.getItem k s1 = Cookies.getItem k s /\
  Cookies.highscores s1 = Cookies.highscores s /\
  Cookies.get_name reply' u s1 = (nm, s1).
Proof.
  intros Hk nm s1. unfold nm, s1, Cookies.change_name. simpl.
  split; [apply substring_0_length|].
  split.
  { apply substring_0_head, trim_right_head, trim_left_no_leading_space. }
  split; [apply getItem_setItem_eq|].
  split; [apply getItem_setItem_ne; congruence|].
  split; [reflexivity|].
  unfold Cookies.get_name. now rewrite getItem_setItem_eq.
Qed.

Lemma change_name_stores_short_name_witness :
  let r := Cookies.change_name (Some "   Bartholomew the 2nd "%string) "Player 2"
             (Cookies.set_score_session "Player 1" 70 (Engine.session Engine.emptyEnv)) in
  fst r = "Bartholomew "%string /\
  Cookies.getItem "Player 1 score" (snd r) = Some "70"%string /\
  Cookies.get_name None "Player 2" (snd r) = r.
Proof.
  destruct (change_name_stores_short_name
              (Some "   Bartholomew the 2nd "%string) None "Player 2" "Player 1 score"
              (Cookies.set_score_session "Player 1" 70 (Engine.session Engine.emptyEnv)))
    as (_ & _ & _ & Hk & _ & Hg); [discriminate|].
  split; [reflexivity|]. split; [rewrite Hk; reflexivity|].
  rewrite Hg. reflexivity.
Defined.

(** ** cookies.js: the highscore list *)

Section Ranking.
Import Cookies.

Lemma insert_desc_perm p l : Permutation (insert_desc p l) (p :: l).
Proof.
  induction l as [|q r IH]; simpl; [reflexivity|].
  destruct (score q <=? score p); [reflexivity|].
  rewrite IH. apply perm_swap.
Qed.

Lemma sort_desc_perm l : Permutation (sort_desc l) l.
Proof.
  induction l as [|p l IH]; simpl; [reflexivity|].
  rewrite insert_desc_perm. now constructor.
Qed.

(** Insertion in front of entries that do not beat the new one. *)
Lemma insert_desc_front p l :
  Forall (fun q => score q <= score p) l -> insert_desc p l = p :: l.
Proof.
  destruct 1 as [|q r Hq _]; simpl; [reflexivity|].
  destruct (Z.leb_spec (score q) (score p)); [reflexivity|lia].
Qed.

Lemma filter_keep_all {A} (P : A -> Prop) `{forall x, Decision (P x)} (l : list A) :
  Forall P l -> filter P l = l.
Proof.
  induction 1 as [|x l Hx _ IH]; [reflexivity|].
  rewrite filter_cons_True by assumption. now rewrite IH.
Qed.

Lemma filter_keep_none {A} (P : A -> Prop) `{forall x, Decision (P x)} (l : list A) :
  Forall (fun x => ~ P x) l -> filter P l = [].
Proof.
  induction 1 as [|x l Hx _ IH]; [reflexivity|].
  now rewrite filter_cons_False by assumption.
Qed.

(** Sorting a sorted list with one more entry at its end: the entry goes
    behind every stored entry that scores as much or more. *)
Lemma sort_desc_snoc p l :
  StronglySorted (fun a b => score b <= score a) l ->
  sort_desc (l ++ [p]) =
  filter (fun q => score p <= score q) l ++ [p] ++
  filter (fun q => score q < score p) l.
Proof.
  induction 1 as [|q l Hs IH Hq]; [reflexivity|].
  simpl. rewrite IH. clear IH.
  destruct (Z.le_gt_cases (score p) (score q)) as [Hle|Hgt].
  - rewrite filter_cons_True by assumption.
    rewrite filter_cons_False by lia.
    apply insert_desc_front.
    apply Forall_app. split.
    + apply Forall_forall. intros x Hx.
      apply list_elem_of_filter in Hx as [_ Hx].
      rewrite Forall_forall in Hq. now apply Hq.
    + constructor; [exact Hle|].
      apply Forall_forall. intros x Hx.
      apply list_elem_of_filter in Hx as [_ Hx].
      rewrite Forall_forall in Hq. now apply Hq.
  - rewrite filter_cons_False by lia.
    rewrite filter_cons_True by lia.
    rewrite (filter_keep_none (fun q0 => score p <= score q0) l).
    + rewrite (filter_keep_all (fun q0 => score q0 < score p) l).
      * simpl. destruct (Z.leb_spec (score p) (score q)); [lia|].
        f_equal. now apply insert_desc_front.
      * eapply Forall_impl; [exact Hq|]. simpl. intros x Hx. lia.
    + eapply Forall_impl; [exact Hq|]. simpl. intros x Hx. lia.
Qed.

End Ranking.

(** X3.  Whatever the stored list, what [update_highscores] stores is in
    descending order of score and holds exactly the old entries and the new
    one: no entry is ever dropped or duplicated. *)
Theorem update_highscores_sorted_permutation
    (reply : option string) (u : string) (sc : Z) (s : Cookies.Session) :
  let s' := Cookies.update_highscores reply u sc s in
  Sorted (fun a b => Cookies.score b <= Cookies.score a) (Cookies.get_highscores s') /\
  Permutation (Cookies.get_highscores s')
    ({| Cookies.name := fst (Cookies.get_name reply u s); Cookies.score := sc |}
     :: Cookies.get_highscores s).
Proof.
  intros s'. unfold s'. rewrite update_highscores_stored.
  split; [apply sort_desc_sorted|].
  rewrite sort_desc_perm. symmetry. apply Permutation_cons_append.
Qed.

(** X4.  On a stored list that is in descending order, [update_highscores]
    places the new entry behind every entry with the same or a higher score
    and in front of every lower one; the old entries keep their order. *)
Theorem update_highscores_rank
    (reply : option string) (u : string) (sc : Z) (s : Cookies.Session) :
  Sorted (fun a b => Cookies.score b <= Cookies.score a) (Cookies.get_highscores s) ->
  Cookies.get_highscores (Cookies.update_highscores reply u sc s) =
  filter (fun q => sc <= Cookies.score q) (Cookies.get_highscores s) ++
  [ {| Cookies.name := fst (Cookies.get_name reply u s); Cookies.score := sc |} ] ++
  filter (fun q => Cookies.score q < sc) (Cookies.get_highscores s).
Proof.
  intros Hs. rewrite update_highscores_stored.
  apply (sort_desc_snoc
           {| Cookies.name := fst (Cookies.get_name reply u s); Cookies.score := sc |}).
  apply Sorted_StronglySorted; [|exact Hs].
  intros a b c Hab Hbc. lia.
Qed.

Lemma update_highscores_rank_witness :
  map Cookies.score
    (Cookies.get_highscores
       (Cookies.update_highscores None "Player 1" 500 Samples.ten_highscores))
  = [900; 800; 700; 600; 500; 500; 400; 300; 200; 100; 50] /\
  map Cookies.name
    (Cookies.get_highscores
       (Cookies.update_highscores None "Player 1" 500
          (Cookies.setItem "Player 1" "ZOE" Samples.ten_highscores)))
  = ["ANN"; "ANN"; "ANN"; "ANN"; "ANN"; "ZOE"; "ANN"; "ANN"; "ANN"; "ANN"; "ANN"]%string.
Proof.
  split.
  - rewrite (update_highscores_rank None "Player 1" 500 Samples.ten_highscores).
    + reflexivity.
    + repeat constructor; simpl; lia.
  - rewrite (update_highscores_rank None "Player 1" 500
               (Cookies.setItem "Player 1" "ZOE" Samples.ten_highscores)).
    + reflexivity.
    + repeat constructor; simpl; lia.
Defined.

(** ** cookies.js: releasing the handshake *)

(** X5.  [release_game_state] overwrites the three handshake items with
    "false", the empty string and "0", whatever they held, and leaves every
    other item and the highscore list as they were; releasing twice stores
    what releasing once stores. *)
Theorem release_game_state_resets_only_handshake (k : string) (s : Cookies.Session) :
  Cookies.getItem k (Cookies.release_game_state s) =
    (if String.eqb k "game_state_boolean" then Some "false"%string
     else if String.eqb k "game_state_user" then Some EmptyString
     else if String.eqb k "game_state_score" then Some "0"%string
     else Cookies.getItem k s) /\
  Cookies.highscores (Cookies.release_game_state s) = Cookies.highscores s /\
  Cookies.items (Cookies.release_game_state (Cookies.release_game_state s)) =
    Cookies.items (Cookies.release_game_state s).
Proof.
  split; [|split; [reflexivity|]].
  - unfold Cookies.release_game_state.
    destruct (String.eqb_spec k "game_state_boolean") as [->|H1].
    { rewrite !getItem_setItem_ne by discriminate. apply getItem_setItem_eq. }
    destruct (String.eqb_spec k "game_state_user") as [->|H2].
    { rewrite !getItem_setItem_ne by discriminate. apply getItem_setItem_eq. }
    destruct (String.eqb_spec k "game_state_score") as [->|H3].
    { apply getItem_setItem_eq. }
    now rewrite !getItem_setItem_ne by congruence.
  - unfold Cookies.release_game_state, Cookies.setItem. simpl.
    apply map_eq. intros i.
    destruct (decide (i = "game_state_score"%string)) as [->|H3].
    { now rewrite !lookup_insert_eq. }
    rewrite (lookup_insert_ne _ "game_state_score"%string i) by congruence.
    rewrite (lookup_insert_ne _ "game_state_score"%string i) by congruence.
    destruct (decide (i = "game_state_user"%string)) as [->|H2].
    { now rewrite !lookup_insert_eq. }
    rewrite (lookup_insert_ne _ "game_state_user"%string i) by congruence.
    rewrite (lookup_insert_ne _ "game_state_user"%string i) by congruence.
    destruct (decide (i = "game_state_boolean"%string)) as [->|H1].
    { now rewrite !lookup_insert_eq. }
    rewrite (lookup_insert_ne _ "game_state_boolean"%string i) by congruence.
    rewrite (lookup_insert_ne _ "game_state_boolean"%string i) by congruence.
    rewrite (lookup_insert_ne _ "game_state_score"%string i) by congruence.
    rewrite (lookup_insert_ne _ "game_state_user"%string i) by congruence.
    now rewrite (lookup_insert_ne _ "game_state_boolean"%string i) by congruence.
Qed.

(** ** The winner alert and the score banner *)

Section Banner.
Variable toNumber : string -> option Q.

Lemma less_num_num a b :
  Js.less toNumber (Js.Num a) (Js.Num b) = Some (a <? b).
Proof.
  unfold Js.less. simpl. f_equal.
  destruct (Z.ltb_spec a b) as [H|H].
  - apply Qltb_lt. now rewrite <- Zlt_Qlt.
  - apply Qltb_ge. now rewrite <- Zle_Qle.
Qed.

End Banner.

(** X6.  [twoPlayersWinnerAlert] called with a number for the caller's
    score and a string for the friend's, as the game-over path calls it
    (the friend's score comes out of [sessionStorage]): the "PERFECT
    EQUALITY" message is never shown, and when the string reads as the
    caller's score nothing is alerted and nothing is stored.  Called with
    two equal numbers it does alert the equality. *)
Theorem twoPlayersWinnerAlert_number_against_string
    (toNumber : string -> option Q) (reply : option string)
    (thisUser userFriend friendScore : string) (thisScore : Z)
    (s : Cookies.Session) :
  toNumber friendScore = Some (inject_Z thisScore) ->
  fst (Results.twoPlayersWinnerAlert toNumber reply thisUser (Js.Num thisScore)
         userFriend (Js.Str friendScore) s) = None /\
  snd (Results.twoPlayersWinnerAlert toNumber reply thisUser (Js.Num thisScore)
         userFriend (Js.Str friendScore) s) = s /\
  (forall any : string,
     fst (Results.twoPlayersWinnerAlert toNumber reply thisUser (Js.Num thisScore)
            userFriend (Js.Str any) s)
     <> Some "PERFECT EQUALITY, YOU SHOULD PLAY AGAIN !"%string) /\
  Results.twoPlayersWinnerAlert toNumber reply thisUser (Js.Num thisScore)
    userFriend (Js.Num thisScore) s
  = (Some "PERFECT EQUALITY, YOU SHOULD PLAY AGAIN !"%string, s).
Proof.
  intros Hn.
  assert (Htie : Results.twoPlayersWinnerAlert toNumber reply thisUser
                   (Js.Num thisScore) userFriend (Js.Str friendScore) s = (None, s)).
  { unfold Results.twoPlayersWinnerAlert, Js.gt, Js.lt, Js.less. simpl.
    rewrite Hn.
    replace (Qltb (inject_Z thisScore) (inject_Z thisScore)) with false
      by (symmetry; apply Qltb_ge; lra).
    reflexivity. }
  rewrite Htie. split; [reflexivity|]. split; [reflexivity|]. split.
  - intros any. unfold Results.twoPlayersWinnerAlert.
    destruct (Js.gt toNumber _ _).
    { destruct (Cookies.get_name reply thisUser s). simpl. discriminate. }
    destruct (Js.lt toNumber _ _).
    { destruct (Cookies.get_name reply userFriend s). simpl. discriminate. }
    simpl. discriminate.
  - unfold Results.twoPlayersWinnerAlert, Js.gt, Js.lt.
    rewrite !less_num_num, Z.ltb_irrefl. simpl. now rewrite Z.eqb_refl.
Qed.

Lemma twoPlayersWinnerAlert_number_against_string_witness :
  Results.twoPlayersWinnerAlert Invariants.read_decimal None "Player 2"
    (Js.Num 150) "Player 1" (Js.Str "150")
    (Cookies.setItem "Player 1" "ANN" (Engine.session Engine.emptyEnv))
  = (None, Cookies.setItem "Player 1" "ANN" (Engine.session Engine.emptyEnv)) /\
  fst (Results.twoPlayersWinnerAlert Invariants.read_decimal None "Player 2"
         (Js.Num 90) "Player 1" (Js.Str "150")
         (Cookies.setItem "Player 1" "ANN" (Engine.session Engine.emptyEnv)))
  = Some "THE WINNER IS ANN !"%string.
Proof.
  destruct (twoPlayersWinnerAlert_number_against_string Invariants.read_decimal
              None "Player 2" "Player 1" "150" 150
              (Cookies.setItem "Player 1" "ANN" (Engine.session Engine.emptyEnv)))
    as (H1 & H2 & _); [reflexivity|].
  split; [|reflexivity].
  apply injective_projections; [exact H1|exact H2].
Defined.

(** X7.  Whatever is stored, [set_highscore_table] builds exactly ten rows,
    ranked MAJOR, 2, ..., 10: the first ten stored entries in their stored
    order, then placeholder rows; entries beyond the tenth are not shown. *)
Theorem set_highscore_table_ten_rows (s : Cookies.Session) :
  let rows := Results.set_highscore_table s in
  let hs := Cookies.get_highscores s in
  length rows = 10%nat /\
  map Results.rankCell rows =
    ["MAJOR"; "2"; "3"; "4"; "5"; "6"; "7"; "8"; "9"; "10"]%string /\
  map Results.nameCell rows =
    take 10 (map Cookies.name hs) ++ repeat "-"%string (10 - length hs) /\
  map Results.scoreCell rows =
    take 10 (map (fun p => String_of_Z (Cookies.score p)) hs)
    ++ repeat "-"%string (10 - length hs) /\
  map Results.rowId rows = Some "majored"%string :: repeat None 9.
Proof.
  intros rows hs. unfold rows, Results.set_highscore_table. fold hs.
  generalize hs. clear. intros hs.
  split; [reflexivity|]. split; [reflexivity|].
  split; [|split; [|reflexivity]];
    do 10 (destruct hs as [|? hs]; [reflexivity|]); reflexivity.
Qed.

(** X8.  The banner for two players in direct mode.  With both scores given
    as numbers it shows the larger one.  With the friend's score left out,
    which is how [printHighScores] calls [set_score_text], it shows the
    caller's own score whenever that is not negative, whatever the friend
    scored.  In direct mode the stored scores are not read. *)
Theorem set_score_text_direct_two_players
    (toNumber : string -> option Q) (thisScore friendScore : Z)
    (s : Cookies.Session) :
  0 <= thisScore ->
  Results.set_score_text toNumber 2 true (Js.Num thisScore) (Js.Num friendScore) s
    = ("Best Score: " +:+ String_of_Z (Z.max thisScore friendScore))%string /\
  Results.set_score_text toNumber 2 true (Js.Num thisScore) Js.Null s
    = ("Best Score: " +:+ String_of_Z thisScore)%string /\
  Results.set_score_text toNumber 1 true (Js.Num thisScore) Js.Null s
    = ("Score: " +:+ String_of_Z thisScore)%string.
Proof.
  intros Hpos. split; [|split; [|reflexivity]].
  - unfold Results.set_score_text, Js.ge. rewrite less_num_num.
    destruct (Z.ltb_spec thisScore friendScore) as [H|H]; simpl.
    + now rewrite Z.max_r by lia.
    + now rewrite Z.max_l by lia.
  - unfold Results.set_score_text, Js.ge, Js.less. simpl.
    replace (Qltb (inject_Z thisScore) 0) with false; [reflexivity|].
    symmetry. apply Qltb_ge. change 0%Q with (inject_Z 0). now rewrite <- Zle_Qle.
Qed.

Lemma set_score_text_direct_two_players_witness :
  Results.set_score_text Invariants.read_decimal 2 true (Js.Num 90) (Js.Num 150)
    (Engine.session Engine.emptyEnv) = "Best Score: 150"%string /\
  Results.set_score_text Invariants.read_decimal 2 true (Js.Num 90) Js.Null
    (Engine.session Engine.emptyEnv) = "Best Score: 90"%string.
Proof.
  destruct (set_score_text_direct_two_players Invariants.read_decimal 90 150
              (Engine.session Engine.emptyEnv)) as (H1 & H2 & _); [lia|].
  split; [exact H1|exact H2].
Defined.

(** X9.  The banner for two players in session mode, with both scores
    stored and the first one reading as a positive number: the first stored
    string replaces the initial 0, and the second one is then compared with
    it as a string, so the banner shows the later of the two strings in
    dictionary order, not the larger number.  With no score stored at all
    the banner shows 0: the sentinel -42 never gets into it. *)
Theorem set_score_text_session_two_players
    (toNumber : string -> option Q) (s1 s2 : string) (q1 : Q)
    (a b : Js.Value) (s : Cookies.Session) :
  Cookies.getItem "Player 1 score" s = Some s1 ->
  Cookies.getItem "Player 2 score" s = Some s2 ->
  toNumber s1 = Some q1 -> (0 < q1)%Q ->
  Results.set_score_text toNumber 2 false a b s
    = ("Best Score: " +:+ (if String.ltb s1 s2 then s2 else s1))%string /\
  (forall s0,
     Cookies.getItem "Player 1 score" s0 = None ->
     Cookies.getItem "Player 2 score" s0 = None ->
     Results.set_score_text toNumber 2 false a b s0 = "Best Score: 0"%string /\
     Results.set_score_text toNumber 1 false a b s0 = "Score: 0"%string).
Proof.
  intros H1 H2 Hn Hq.
  assert (Hloop : forall m s',
    Results.session_max toNumber 2 1 m s' =
    let v1 := Results.score_value (Cookies.get_score_session "Player 1" s') in
    let m1 := if Js.gt toNumber v1 m then v1 else m in
    let v2 := Results.score_value (Cookies.get_score_session "Player 2" s') in
    if Js.gt toNumber v2 m1 then v2 else m1) by reflexivity.
  assert (Hget : forall u s', Cookies.get_score_session u s' =
            match Cookies.getItem (u +:+ " score") s' with
            | Some sc => inr sc | None => inl (-42) end) by reflexivity.
  split.
  - unfold Results.set_score_text.
    change (Z.to_nat 2) with 2%nat. cbn [Z.eqb Pos.eqb negb].
    rewrite Hloop, !Hget.
    change ("Player 1" +:+ " score")%string with "Player 1 score"%string.
    change ("Player 2" +:+ " score")%string with "Player 2 score"%string.
    rewrite H1, H2. cbn [Results.score_value].
    unfold Js.gt, Js.lt, Js.less. cbn [Js.ToNumber]. rewrite Hn.
    replace (Qltb (inject_Z 0) q1) with true by (symmetry; now apply Qltb_lt).
    cbv zeta. now destruct (String.ltb s1 s2).
  - intros s0 E1 E2. split.
    + unfold Results.set_score_text.
      change (Z.to_nat 2) with 2%nat. cbn [Z.eqb Pos.eqb negb].
      rewrite Hloop, !Hget.
      change ("Player 1" +:+ " score")%string with "Player 1 score"%string.
      change ("Player 2" +:+ " score")%string with "Player 2 score"%string.
      rewrite E1, E2. reflexivity.
    + unfold Results.set_score_text.
      change (Z.to_nat 1) with 1%nat. cbn [Z.eqb Pos.eqb negb andb].
      cbn [Results.session_max]. rewrite !Hget.
      change (("Player " +:+ String_of_Z 1) +:+ " score")%string
        with "Player 1 score"%string.
      rewrite E1. reflexivity.
Qed.

Lemma set_score_text_session_two_players_witness :
  let s := Cookies.set_score_session "Player 2" 150
             (Cookies.set_score_session "Player 1" 90
                (Engine.session Engine.emptyEnv)) in
  Results.set_score_text Invariants.read_decimal 2 false Js.Null Js.Null s
    = "Best Score: 90"%string /\
  Results.set_score_text Invariants.read_decimal 2 false Js.Null Js.Null
    (Engine.session Engine.emptyEnv) = "Best Score: 0"%string.
Proof.
  destruct (set_score_text_session_two_players Invariants.read_decimal
              "90" "150" 90 Js.Null Js.Null
              (Cookies.set_score_session "Player 2" 150
                 (Cookies.set_score_session "Player 1" 90
                    (Engine.session Engine.emptyEnv))))
    as (H1 & H0); try reflexivity.
  split; [exact H1|].
  apply (H0 (Engine.session Engine.emptyEnv)); reflexivity.
Defined.

(** ** Game.js: the guards of the game-over transition *)

(** X10.  [gameOver] runs at most once per instance: whatever the first
    call did, even when it raised, a second call, with either value of
    [update], returns at once and changes neither the game nor the page;
    nothing is stored or scheduled twice. *)
Theorem gameOver_reentry_is_noop
    (upd upd' : bool) (g : Engine.Game) (e : Engine.Env) :
  let first := Engine.gameOver upd g e in
  Engine.gameOver upd' (Vocabulary.game_of first) (Vocabulary.env_of first)
  = (Engine.Normal, Vocabulary.game_of first, Vocabulary.env_of first).
Proof.
  intros first. apply gameOver_dead. apply gameOver_marks_dead.
Qed.

(** ** Game.js: the difficulty ramp *)

Section Ramp.
Import Engine Invariants.

Lemma interval_elapsed_fold (l : list (nat * string)) :
  forall g,
    let g' := fold_left
                (fun g' (p : nat * string) =>
                   if String.eqb (snd p) (user g')
                   then set_difficultyLevel (difficultyLevel g' + 1) g' else g')
                l g in
    user g' = user g /\
    difficultyLevel g' =
      difficultyLevel g + Z.of_nat (length (filter (fun p => snd p = user g) l)) /\
    run g' = run g /\ notes g' = notes g /\
    difficultyIntervalId g' = difficultyIntervalId g.
Proof.
  induction l as [|p l IH]; intros g; simpl.
  - repeat split; lia.
  - destruct (String.eqb_spec (snd p) (user g)) as [E|E].
    + destruct (IH (set_difficultyLevel (difficultyLevel g + 1) g))
        as (Hu & Hl & Hr & Hn & Hi).
      simpl in *. rewrite Hu, Hl, Hr, Hn, Hi.
      rewrite filter_cons_True by assumption. simpl.
      repeat split; lia.
    + destruct (IH g) as (Hu & Hl & Hr & Hn & Hi).
      rewrite Hu, Hl, Hr, Hn, Hi.
      rewrite filter_cons_False by assumption.
      repeat split; lia.
Qed.

Lemma filter_fresh_handle (l : list (nat * string)) (id : nat) :
  Forall (fun p => (fst p < id)%nat) l ->
  filter (fun p => fst p <> id) l = l.
Proof.
  intros H. apply filter_keep_all.
  eapply Forall_impl; [exact H|]. simpl. intros p Hp. lia.
Qed.

End Ramp.

(** X11.  One period of 5000 ms raises the difficulty level of an instance
    by the number of live interval timers bound to it, and changes nothing
    else of it; [restart] leaves every live timer in place and adds one for
    its instance, so each restart of an instance whose timer was not
    stopped raises that number by one. *)
Theorem interval_elapsed_counts_timers
    (reply : option string) (g : Engine.Game) (e : Engine.Env) :
  let g' := Engine.interval_elapsed e g in
  Engine.difficultyLevel g' =
    Engine.difficultyLevel g + Z.of_nat (Invariants.owned_timers (Engine.user g) e) /\
  Engine.run g' = Engine.run g /\ Engine.notes g' = Engine.notes g /\
  Engine.user g' = Engine.user g /\
  Invariants.owned_timers (Engine.user g) (snd (Engine.restart reply g e)) =
    S (Invariants.owned_timers (Engine.user g) e).
Proof.
  intros g'. unfold g', Engine.interval_elapsed, Invariants.owned_timers.
  destruct (interval_elapsed_fold (Engine.intervals e) g) as (Hu & Hl & Hr & Hn & _).
  rewrite Hl, Hr, Hn, Hu. repeat split.
  rewrite restart_adds_ticker, filter_app, length_app.
  rewrite filter_cons_True by reflexivity. simpl. lia.
Qed.

(** X12.  The ramp is started and stopped idempotently: a second
    [startDifficultyRamp] changes nothing, a second [stopDifficultyRamp]
    changes nothing; and on a page whose handles are all below the next
    one, starting the ramp of an instance that has none and stopping it
    again leaves the live timers and the instance as they were. *)
Theorem difficulty_ramp_start_stop (g : Engine.Game) (e : Engine.Env) :
  Engine.difficultyIntervalId g = None ->
  Invariants.handles_fresh e ->
  let started := Engine.startDifficultyRamp g e in
  let stopped := Engine.stopDifficultyRamp (fst started) (snd started) in
  Engine.startDifficultyRamp (fst started) (snd started) = started /\
  Engine.stopDifficultyRamp (fst stopped) (snd stopped) = stopped /\
  Engine.stopDifficultyRamp g e = (g, e) /\
  Invariants.owned_timers (Engine.user g) (snd started) =
    S (Invariants.owned_timers (Engine.user g) e) /\
  fst stopped = g /\
  Engine.intervals (snd stopped) = Engine.intervals e /\
  Invariants.handles_fresh (snd stopped).
Proof.
  intros Hid Hfresh started stopped.
  unfold stopped, started, Engine.startDifficultyRamp, Engine.stopDifficultyRamp.
  rewrite Hid. simpl.
  assert (Hf : filter (fun p : nat * string => fst p <> Engine.nextId e)
                 (Engine.intervals e ++ [(Engine.nextId e, Engine.user g)])
               = Engine.intervals e).
  { rewrite filter_app, filter_fresh_handle by exact Hfresh.
    rewrite filter_cons_False by (simpl; congruence).
    apply app_nil_r. }
  rewrite Hf.
  split; [reflexivity|]. split; [reflexivity|]. split; [reflexivity|].
  split.
  { unfold Invariants.owned_timers. simpl.
    rewrite filter_app, length_app, filter_cons_True by reflexivity.
    simpl. lia. }
  split.
  { destruct g; simpl in *. now subst. }
  split; [reflexivity|].
  unfold Invariants.handles_fresh in *. simpl. rewrite Hf.
  eapply Forall_impl; [exact Hfresh|]. simpl. intros p Hp. lia.
Qed.

Lemma difficulty_ramp_start_stop_witness :
  let g := Engine.player1Game 1000 800 1 in
  let started := Engine.startDifficultyRamp g Engine.emptyEnv in
  Engine.intervals (snd started) = [(1%nat, "Player 1"%string)] /\
  Engine.stopDifficultyRamp (fst started) (snd started)
  = (g, {| Engine.session := Engine.session Engine.emptyEnv;
           Engine.intervals := []; Engine.nextId := 2;
           Engine.timeouts := [] |}).
Proof.
  destruct (difficulty_ramp_start_stop (Engine.player1Game 1000 800 1) Engine.emptyEnv)
    as (_ & _ & _ & _ & Hg & Hi & _); [reflexivity|constructor|].
  split; [reflexivity|].
  apply injective_projections; [exact Hg|].
  simpl in *. reflexivity.
Defined.

(** ** Game.js: what the note loop leaves behind *)

Section Survivors.
Import Vocabulary.

Lemma sweep_survivors H px py pw ph l r :
  let l' := fst (sweep H px py pw ph l r) in
  Forall (fun n => NoteTypes.isOut H n = false) l' /\
  l' `sublist_of` map NoteTypes.update l.
Proof.
  induction l as [|n0 l IH]; simpl; [split; constructor|].
  destruct (sweep H px py pw ph l r) as [l' r1]. simpl in IH.
  destruct IH as [IHo IHs].
  destruct (NoteTypes.isOut H (NoteTypes.update n0)) eqn:Eo; simpl.
  { split; [assumption|now apply sublist_cons]. }
  destruct (Run.isGameOver r1); simpl.
  { split; [now constructor|now apply sublist_skip]. }
  destruct (NoteTypes.collidesWithRect px py pw ph (NoteTypes.update n0)); simpl.
  { split; [assumption|now apply sublist_cons]. }
  split; [now constructor|now apply sublist_skip].
Qed.

End Survivors.

(** X13.  In any state of the game, [updateNotes] completes, and the notes
    it leaves are, in their old order, some of the old notes each moved
    down once by its fall speed: none is added, none is moved twice, and
    none of them is below the lower edge of the canvas. *)
Theorem updateNotes_survivors (g : Engine.Game) :
  let g' := snd (Engine.updateNotes g) in
  fst (Engine.updateNotes g) = Engine.Normal /\
  Engine.notes g' `sublist_of` map NoteTypes.update (Engine.notes g) /\
  Forall (fun n => NoteTypes.isOut (Engine.canvas_height g) n = false)
    (Engine.notes g') /\
  (length (Engine.notes g') <= length (Engine.notes g))%nat.
Proof.
  intros g'. unfold g'. rewrite updateNotes_sweep. simpl.
  pose proof (sweep_survivors (Engine.canvas_height g) (Engine.caracterX g)
                (Engine.canvas_height g - Engine.caracterHeight g)%Q
                (Engine.caracterWidth g) (Engine.caracterHeight g)
                (Engine.notes g) (Engine.run g)) as [Ho Hs].
  destruct (Vocabulary.sweep _ _ _ _ _ _ _) as [l' r']. simpl in *.
  split; [reflexivity|]. split; [exact Hs|]. split; [exact Ho|].
  apply sublist_length in Hs. now rewrite length_map in Hs.
Qed.

(** ** Game.js with the registry of the game: lives, flag and score *)

Section RegistryRun.
Import Run NoteTypes Invariants.

Lemma checkGameOver_score r : Run.score (checkGameOver r) = Run.score r.
Proof.
  unfold checkGameOver. destruct (Qgtb (lives r) 0); [reflexivity|].
  match goal with |- Run.score (playSfx ?k ?s) = _ =>
    destruct (playSfx_fields k s) as (-> & _) end.
  destruct r as [sc lv go ll da sf pl pn]; simpl. now destruct da.
Qed.

Lemma checkGameOver_match r :
  isGameOver r = false -> lives_match_flag (checkGameOver r).
Proof.
  intros Hg. destruct (Qgtb (lives r) 0) eqn:E.
  - unfold checkGameOver. rewrite E. left. split; [exact Hg|].
    now apply Qgtb_gt.
  - apply Qgtb_le in E.
    destruct (checkGameOver_depleted r E) as (Hl & Ho & _).
    right. split; [exact Ho|]. rewrite Hl. reflexivity.
Qed.

Lemma onCatchA_match game type :
  (0 <= lifeDelta type)%Q -> 0 <= NoteTypes.score type ->
  isGameOver game = false -> lives_match_flag game ->
  lives_match_flag (onCatchA game type) /\
  Run.score game <= Run.score (onCatchA game type).
Proof.
  intros Hd Hs Hg [[_ Hl]|[Ho _]]; [|congruence].
  unfold onCatchA.
  match goal with |- context [playSfx ?k ?s] =>
    destruct (playSfx_fields k s) as (Es & El & Eg & _) end.
  split.
  - left. rewrite Eg, El. simpl. split; [exact Hg|]. lra.
  - rewrite Es. simpl. lia.
Qed.

Lemma onCatchGood_match game type :
  0 <= NoteTypes.score type ->
  isGameOver game = false -> lives_match_flag game ->
  lives_match_flag (onCatchGood game type) /\
  Run.score game <= Run.score (onCatchGood game type).
Proof.
  intros Hs Hg [[_ Hl]|[Ho _]]; [|congruence].
  unfold onCatchGood.
  match goal with |- context [playSfx ?k ?s] =>
    destruct (playSfx_fields k s) as (Es & El & Eg & _) end.
  split.
  - left. rewrite Eg, El. simpl. split; [exact Hg|]. exact Hl.
  - rewrite Es. simpl. lia.
Qed.

Lemma onCatchBad_match game type :
  isGameOver game = false ->
  lives_match_flag (onCatchBad game type) /\
  Run.score game <= Run.score (onCatchBad game type).
Proof.
  intros Hg. unfold onCatchBad.
  match goal with |- context [playSfx ?k ?s] =>
    destruct (playSfx_fields k s) as (Es & El & Eg & _) end.
  split.
  - apply checkGameOver_match. now rewrite Eg.
  - rewrite checkGameOver_score, Es. simpl. lia.
Qed.

(** Every strategy of the registry keeps lives and flag in agreement and
    never lowers the score. *)
Lemma registry_catch_match t game :
  In t buildNoteTypes ->
  isGameOver game = false -> lives_match_flag game ->
  lives_match_flag (onCatch t game (info t)) /\
  Run.score game <= Run.score (onCatch t game (info t)).
Proof.
  intros Hin Hg Hm. simpl in Hin.
  destruct Hin as [<-|[<-|[<-|[<-|[<-|[<-|[<-|[]]]]]]]]; simpl;
    first [ apply onCatchA_match; simpl; (lia || lra || assumption || (unfold Qle; simpl; lia))
          | apply onCatchGood_match; simpl; (lia || assumption)
          | now apply onCatchBad_match ].
Qed.

Lemma registry_note_update n : registry_note n -> registry_note (update n).
Proof. intros (t & Ht & Hin). now exists t. Qed.

Lemma registry_note_typed n : registry_note n -> Vocabulary.typed n.
Proof. intros (t & Ht & _). now exists t. Qed.

Lemma sweep_registry H px py pw ph l r :
  Forall registry_note l -> lives_match_flag r ->
  let res := Vocabulary.sweep H px py pw ph l r in
  Forall registry_note (fst res) /\ lives_match_flag (snd res) /\
  Run.score r <= Run.score (snd res).
Proof.
  intros Hl Hm. induction Hl as [|n0 l Hn Hl IH]; simpl.
  - repeat split; [constructor|assumption|lia].
  - destruct (Vocabulary.sweep H px py pw ph l r) as [l' r1]. simpl in IH.
    destruct IH as (IHn & IHm & IHs).
    destruct (isOut H (update n0)); simpl; [auto|].
    destruct (Run.isGameOver r1) eqn:Eg; simpl.
    { split; [|auto].
      constructor; [now apply registry_note_update|assumption]. }
    destruct (collidesWithRect px py pw ph (update n0)); simpl.
    + destruct Hn as (t & Ht & Hin). rewrite Ht.
      destruct (registry_catch_match t r1 Hin Eg IHm) as [Hm' Hs'].
      split; [assumption|]. split; [assumption|lia].
    + split; [|auto].
      constructor; [now apply registry_note_update|assumption].
Qed.

End RegistryRun.

Section RegistryFrames.
Import Engine Vocabulary Invariants.

Lemma drawLives_outcome g :
  same_outcome (run g) (run (drawLives g)) /\
  notes (drawLives g) = notes g /\ noteTypes (drawLives g) = noteTypes g /\
  caracterX (drawLives g) = caracterX g.
Proof.
  unfold drawLives, same_outcome.
  destruct (Run.livesLostAnimStart (run g)); [|auto 10].
  destruct (Qleb _ _); simpl; auto 10.
Qed.

Lemma drawGameOver_game g e :
  let g' := game_of (drawGameOver g e) in
  run g' = run g /\ notes g' = notes g /\ noteTypes g' = noteTypes g /\
  caracterX g' = caracterX g.
Proof.
  unfold drawGameOver, gameOver, game_of.
  destruct (negb (gameOverAlreadyHandled g)); [|auto].
  simpl. destruct (dead g); [auto|].
  destruct (Cookies.increment_game_state _ _ _) as [[t|] s2]; [|auto].
  destruct (_ || _); auto.
Qed.

Lemma before_overlay_registry i g :
  noteTypes g = NoteTypes.buildNoteTypes ->
  Forall registry_note (notes g) ->
  lives_match_flag (run g) ->
  let g' := before_overlay i g in
  noteTypes g' = NoteTypes.buildNoteTypes /\
  Forall registry_note (notes g') /\
  lives_match_flag (run g') /\
  Run.score (run g) <= Run.score (run g').
Proof.
  intros Hty Hn Hm. unfold before_overlay.
  set (ga := set_run (Run.set_perfNow (now i) (run g)) g).
  destruct (negb (gameStarted ga) && negb (Run.isGameOver (run ga))).
  { simpl. repeat split; auto. lia. }
  set (g1 := if negb (Run.isGameOver (run ga)) && _ then _ else ga).
  assert (H1 : noteTypes g1 = NoteTypes.buildNoteTypes /\
               Forall registry_note (notes g1) /\ run g1 = run ga).
  { unfold g1. destruct (negb (Run.isGameOver (run ga)) && _);
      [|repeat split; auto].
    split; [exact Hty|]. split; [|reflexivity].
    unfold spawnNote. simpl. apply Forall_app. split; [exact Hn|].
    constructor; [|constructor].
    destruct (selectNoteType_nonempty (rndType i * totalWeight ga)
                (noteTypes ga)) as (t & Ht & Hin).
    { simpl. rewrite Hty. discriminate. }
    exists t. split; [exact Ht|]. simpl in Hin. now rewrite Hty in Hin. }
  destruct H1 as (Hty1 & Hn1 & Hr1).
  assert (Hm1 : lives_match_flag (run g1)) by (rewrite Hr1; exact Hm).
  destruct (sweep_registry (canvas_height g1) (caracterX g1)
              (canvas_height g1 - caracterHeight g1)%Q
              (caracterWidth g1) (caracterHeight g1) (notes g1) (run g1) Hn1 Hm1)
    as (Sn & Sm & Ss).
  destruct (sweep _ _ _ _ _ (notes g1) (run g1)) as [l' r']. simpl in Sn, Sm, Ss.
  set (g2 := set_run r' (set_notes l' g1)).
  destruct (updatePlayer_fields g2) as (Pr & Pn & _ & _ & Pt & _).
  destruct (drawLives_outcome (updatePlayer g2)) as ((Ls & Ll & Lg & _) & Ln & Lt & _).
  rewrite Lt, Pt, Ln, Pn. simpl.
  split; [exact Hty1|]. split; [exact Sn|].
  rewrite Pr in Ls, Ll, Lg. simpl in Ls, Ll, Lg.
  split.
  - unfold lives_match_flag in *. rewrite Lg, Ll. exact Sm.
  - rewrite Ls. rewrite Hr1 in Ss. exact Ss.
Qed.

Lemma loop_registry i g e :
  noteTypes g = NoteTypes.buildNoteTypes ->
  Forall registry_note (notes g) ->
  lives_match_flag (run g) ->
  let g' := game_of (loop i g e) in
  noteTypes g' = NoteTypes.buildNoteTypes /\
  Forall registry_note (notes g') /\
  lives_match_flag (run g') /\
  Run.score (run g) <= Run.score (run g').
Proof.
  intros Hty Hn Hm.
  rewrite loop_before_overlay.
  - destruct (before_overlay_registry i g Hty Hn Hm) as (Bt & Bn & Bm & Bs).
    simpl. destruct (Run.isGameOver (run (before_overlay i g))).
    + destruct (drawGameOver_game (before_overlay i g) e) as (Dr & Dn & Dt & _).
      rewrite Dr, Dn, Dt. auto.
    + simpl. auto.
  - rewrite Hty. discriminate.
  - eapply Forall_impl; [exact Hn|]. apply registry_note_typed.
Qed.

End RegistryFrames.

(** X14.  The game as [initialiseGame] sets it up (the registry of
    [buildNoteTypes], every live note of one of its types), from a state in
    which lives and flag agree: after any number of frames, however they
    end, the run is either live with lives above zero or over with exactly
    zero lives; the lives never are negative at a frame boundary, every
    note still is a registry note, and the score has not gone down. *)
Theorem lives_agree_with_game_over_flag
    (inputs : list Engine.FrameInput) (g : Engine.Game) (e : Engine.Env) :
  Engine.noteTypes g = NoteTypes.buildNoteTypes ->
  Forall Invariants.registry_note (Engine.notes g) ->
  Invariants.lives_match_flag (Engine.run g) ->
  let g' := Vocabulary.game_of (Engine.run_frames inputs g e) in
  Invariants.lives_match_flag (Engine.run g') /\
  (0 <= Run.lives (Engine.run g'))%Q /\
  Forall Invariants.registry_note (Engine.notes g') /\
  Run.score (Engine.run g) <= Run.score (Engine.run g').
Proof.
  revert g e. induction inputs as [|i rest IH]; intros g e Hty Hn Hm; cbv zeta;
    simpl.
  - unfold Vocabulary.game_of. simpl.
    split; [exact Hm|]. split; [|split; [exact Hn|lia]].
    destruct Hm as [[_ H]|[_ H]]; lra.
  - destruct (loop_registry i g e Hty Hn Hm) as (Lt & Ln & Lm & Ls).
    destruct (Engine.loop i g e) as [[[|] g1] e1]; simpl in *.
    + destruct (IH g1 e1 Lt Ln Lm) as (Rm & Rl & Rn & Rs).
      unfold Vocabulary.game_of in *. simpl in *.
      split; [exact Rm|]. split; [exact Rl|]. split; [exact Rn|lia].
    + split; [exact Lm|]. split; [|split; [exact Ln|exact Ls]].
      destruct Lm as [[_ H]|[_ H]]; lra.
Qed.

Lemma lives_agree_with_game_over_flag_witness :
  let g' := Vocabulary.game_of
              (Engine.run_frames (repeat (Samples.quiet_frame 0) 5)
                 Samples.half_life_game Samples.released_env) in
  Run.isGameOver (Engine.run g') = true /\ (Run.lives (Engine.run g') == 0)%Q.
Proof.
  destruct (lives_agree_with_game_over_flag (repeat (Samples.quiet_frame 0) 5)
              Samples.half_life_game Samples.released_env)
    as ([[Hg _]|[Hg Hl]] & _); try reflexivity.
  - repeat constructor. exists Samples.typeF. split; [reflexivity|].
    simpl. do 6 right. left. reflexivity.
  - left. split; [reflexivity|]. reflexivity.
  - vm_compute in Hg. discriminate.
  - split; assumption.
Defined.

(** ** Game.js: frames after the game has ended, and before it starts *)

Section QuietFrames.
Import Engine Vocabulary Invariants.

Lemma loop_over_frozen i g e :
  Run.isGameOver (run g) = true ->
  let g' := game_of (loop i g e) in
  same_outcome (run g) (run g') /\
  caracterX g' = caracterX g /\
  difficultyLevel g' = difficultyLevel g /\
  canvas_height g' = canvas_height g /\
  notes g' =
    filter (fun n => NoteTypes.isOut (canvas_height g) n = false)
      (map NoteTypes.update (notes g)).
Proof.
  intros Hg. unfold loop.
  set (ga := set_run (Run.set_perfNow (now i) (run g)) g).
  change (Run.isGameOver (run ga)) with (Run.isGameOver (run g)).
  rewrite Hg. simpl negb. rewrite andb_false_r. simpl andb. cbv iota.
  rewrite updateNotes_sweep.
  rewrite sweep_game_over by exact Hg.
  set (g2 := set_run (run ga) (set_notes _ ga)).
  rewrite (updatePlayer_frozen g2) by exact Hg.
  assert (H2 : same_outcome (run g) (run g2) /\ caracterX g2 = caracterX g /\
               difficultyLevel g2 = difficultyLevel g /\
               canvas_height g2 = canvas_height g /\
               notes g2 = filter (fun n => NoteTypes.isOut (canvas_height g) n = false)
                            (map NoteTypes.update (notes g))).
  { unfold same_outcome. simpl. auto 10. }
  destruct (drawNotes g2); [|exact H2].
  destruct (drawLives_outcome g2) as ((Ls & Ll & Lg & Ld & Lp) & Ln & _ & Lx).
  assert (Hover : Run.isGameOver (run (drawLives g2)) = true)
    by (rewrite Lg; exact Hg).
  rewrite Hover.
  destruct (drawGameOver_game (drawLives g2) e) as (Dr & Dn & _ & Dx).
  destruct H2 as ((Hs & Hl & Ho & Hd & Hp) & Hx & Hdl & Hch & Hn).
  assert (Hrest : difficultyLevel (game_of (drawGameOver (drawLives g2) e))
                  = difficultyLevel g /\
                  canvas_height (game_of (drawGameOver (drawLives g2) e))
                  = canvas_height g).
  { unfold drawGameOver, gameOver, game_of, drawLives.
    destruct (Run.livesLostAnimStart (run g2)) as [t0|];
      [destruct (Qleb _ _)|];
      (destruct (negb _); [|auto]); simpl;
      (destruct (dead g); [auto|]);
      (destruct (Cookies.increment_game_state _ _ _) as [[t|] s2]; [|auto]);
      destruct (_ || _); auto. }
  simpl. rewrite Dr, Dn, Dx, Ln, Lx.
  unfold same_outcome in *. rewrite Ls, Ll, Lg, Ld, Lp.
  destruct Hrest as [-> ->]. auto 10.
Qed.

End QuietFrames.

(** X15.  Once a run is over, no number of further frames changes its
    outcome: score, lives, flag, death timer and the sounds played stay as
    they are, the paddle and the difficulty level seen by the frames stay
    where they are, and no note is spawned: the live notes can only become
    fewer. *)
Theorem frames_after_game_over_change_nothing
    (inputs : list Engine.FrameInput) (g : Engine.Game) (e : Engine.Env) :
  Run.isGameOver (Engine.run g) = true ->
  let g' := Vocabulary.game_of (Engine.run_frames inputs g e) in
  Invariants.same_outcome (Engine.run g) (Engine.run g') /\
  Engine.caracterX g' = Engine.caracterX g /\
  Engine.difficultyLevel g' = Engine.difficultyLevel g /\
  (length (Engine.notes g') <= length (Engine.notes g))%nat.
Proof.
  revert g e. induction inputs as [|i rest IH]; intros g e Hg; cbv zeta; simpl.
  - unfold Vocabulary.game_of, Invariants.same_outcome. simpl. auto 10.
  - destruct (loop_over_frozen i g e Hg)
      as ((Hs & Hl & Ho & Hd & Hp) & Hx & Hdl & _ & Hn).
    assert (Hlen : (length (Engine.notes (Vocabulary.game_of (Engine.loop i g e)))
                    <= length (Engine.notes g))%nat).
    { rewrite Hn. etransitivity; [apply length_filter|]. now rewrite length_map. }
    destruct (Engine.loop i g e) as [[[|] g1] e1];
      unfold Vocabulary.game_of in *; simpl in *.
    + destruct (IH g1 e1) as ((Rs & Rl & Ro & Rd & Rp) & Rx & Rdl & Rn);
        [congruence|].
      unfold Vocabulary.game_of, Invariants.same_outcome in *. simpl in *.
      repeat split; congruence || lia.
    + unfold Invariants.same_outcome. repeat split; congruence || lia.
Qed.

Lemma frames_after_game_over_change_nothing_witness :
  let g' := Vocabulary.game_of
              (Engine.run_frames
                 [ {| Engine.now := 5000; Engine.rndSpawn := 0; Engine.rndType := 0;
                      Engine.rndX := 0; Engine.rndDy := 0 |};
                   Samples.quiet_frame 5016 ]
                 (Engine.set_rightPressed true Samples.over_game)
                 Samples.released_env) in
  Run.score (Engine.run g') = 230 /\ Engine.caracterX g' = ((1000 - 150) / 2)%Q /\
  length (Engine.notes g') = 1%nat.
Proof.
  destruct (frames_after_game_over_change_nothing
              [ {| Engine.now := 5000; Engine.rndSpawn := 0; Engine.rndType := 0;
                   Engine.rndX := 0; Engine.rndDy := 0 |};
                Samples.quiet_frame 5016 ]
              (Engine.set_rightPressed true Samples.over_game)
              Samples.released_env)
    as ((Hs & _) & Hx & _); [reflexivity|].
  split; [exact Hs|]. split; [exact Hx|]. vm_compute. reflexivity.
Defined.

Lemma run_state_eta (g : Engine.Game) :
  Engine.set_run (Run.set_perfNow (Run.perfNow (Engine.run g)) (Engine.run g)) g = g.
Proof. destruct g as [? ? ? ? ? ? ? ? ? ? ? r]. now destruct r. Qed.

Lemma last_clock_reading (inputs : list Engine.FrameInput) (t : Q) :
  fold_left (fun _ i => Engine.now i) inputs t =
  match last inputs with
  | Some i => Engine.now i
  | None => t
  end.
Proof.
  revert t. induction inputs as [|i rest IH]; intros t; [reflexivity|].
  simpl. rewrite IH. destruct rest as [|j rest]; [reflexivity|].
  change (last (i :: j :: rest)) with (last (j :: rest)).
  destruct (last (j :: rest)) eqn:E; [reflexivity|].
  apply last_None in E. discriminate.
Qed.

Lemma run_frames_before_start (inputs : list Engine.FrameInput) :
  forall g e,
    Engine.gameStarted g = false ->
    Run.isGameOver (Engine.run g) = false ->
    Engine.run_frames inputs g e =
    (Engine.Normal,
     Engine.set_run
       (Run.set_perfNow
          (fold_left (fun _ i => Engine.now i) inputs (Run.perfNow (Engine.run g)))
          (Engine.run g)) g,
     e).
Proof.
  induction inputs as [|i rest IH]; intros g e Hs Hg; simpl.
  - now rewrite run_state_eta.
  - unfold Engine.loop. simpl. rewrite Hs, Hg. simpl.
    now rewrite IH by (simpl; assumption).
Qed.

(** X16.  Before the run is started (and not over), frames do nothing but
    read the clock: whatever the random draws and the keys held, any number
    of frames completes and leaves the game as it was, up to the clock
    reading of the last frame, and the page untouched. *)
Theorem frames_before_start_only_read_clock
    (inputs : list Engine.FrameInput) (g : Engine.Game) (e : Engine.Env) :
  Engine.gameStarted g = false ->
  Run.isGameOver (Engine.run g) = false ->
  Engine.run_frames inputs g e =
  (Engine.Normal,
   Engine.set_run
     (Run.set_perfNow
        (match last inputs with
         | Some i => Engine.now i
         | None => Run.perfNow (Engine.run g)
         end)
        (Engine.run g)) g,
   e).
Proof.
  intros Hs Hg.
  rewrite (run_frames_before_start inputs g e Hs Hg).
  now rewrite last_clock_reading.
Qed.

Lemma frames_before_start_only_read_clock_witness :
  Engine.run_frames
    [ {| Engine.now := 16; Engine.rndSpawn := 0; Engine.rndType := 0;
         Engine.rndX := 0; Engine.rndDy := 0 |} ]
    (Engine.set_rightPressed true (Engine.player1Game 1000 800 1)) Engine.emptyEnv
  = (Engine.Normal,
     Engine.set_run
       (Run.set_perfNow 16 (Engine.run (Engine.player1Game 1000 800 1)))
       (Engine.set_rightPressed true (Engine.player1Game 1000 800 1)),
     Engine.emptyEnv).
Proof.
  rewrite frames_before_start_only_read_clock by reflexivity. reflexivity.
Defined.

(** ** NoteType.js: a new note *)

(** X17.  A note built by [new Note] for draws in [0, 1), a note no wider
    than the canvas and a difficulty level of at least 1 starts inside the
    canvas horizontally, with its lower edge on the upper edge of the
    canvas, and falls by more than 2 a frame.  (The numbers of the code
    are doubles, and its products and sums are rounded; these bounds are
    the ones that rounding leaves in place.) *)
Theorem newNote_bounds (rx rdy canvasWidth noteW noteH : Q)
    (type : option NoteTypes.NoteType) (difficultyLevel : Z) :
  (0 <= rx < 1)%Q -> (0 <= rdy < 1)%Q -> (noteW <= canvasWidth)%Q ->
  1 <= difficultyLevel ->
  let n := NoteTypes.newNote rx rdy type canvasWidth noteW noteH difficultyLevel in
  (0 <= NoteTypes.x n)%Q /\
  (NoteTypes.x n + NoteTypes.w n <= canvasWidth)%Q /\
  (NoteTypes.y n + NoteTypes.h n == 0)%Q /\
  (2 < NoteTypes.dy n)%Q.
Proof.
  intros [Hx0 Hx1] [Hd0 Hd1] Hw HD n. unfold n. simpl.
  assert (HDq : (1 <= inject_Z difficultyLevel)%Q).
  { change 1%Q with (inject_Z 1). now rewrite <- Zle_Qle. }
  assert (H10 : (inject_Z difficultyLevel / 10 == inject_Z difficultyLevel * (1 # 10))%Q)
    by (field).
  repeat split; try nra; try lra.
Qed.

Lemma newNote_bounds_witness :
  let n := NoteTypes.newNote (5 # 46) (9 # 10) (Some Samples.typeA) 1000 80 80 1 in
  (0 <= NoteTypes.x n)%Q /\ (NoteTypes.x n + NoteTypes.w n <= 1000)%Q /\
  (2 < NoteTypes.dy n)%Q.
Proof.
  destruct (newNote_bounds (5 # 46) (9 # 10) 1000 80 80 (Some Samples.typeA) 1)
    as (H1 & H2 & _ & H6);
    try (vm_compute; split; congruence); try (vm_compute; congruence).
  auto.
Defined.

(** ** Game.js: the paddle and its input *)

(** X18.  With both directions held, a live run and the paddle strictly
    between the two edges, [updatePlayer] alternates: the update whose turn
    it is moves the paddle 10 to the right, the next one 10 to the left (or
    the other way round), so two successive updates bring the paddle and
    the turn back to where they were. *)
Theorem updatePlayer_alternates_when_both_held (g : Engine.Game) :
  Run.isGameOver (Engine.run g) = false ->
  Engine.rightPressed g = true -> Engine.leftPressed g = true ->
  (0 < Engine.caracterX g < Engine.canvas_width g - Engine.caracterWidth g)%Q ->
  let g1 := Engine.updatePlayer g in
  let g2 := Engine.updatePlayer g1 in
  (Engine.caracterX g1 ==
     Engine.caracterX g + (if Engine.directionToken g then 10 else - 10))%Q /\
  Engine.directionToken g1 = negb (Engine.directionToken g) /\
  (Engine.caracterX g2 == Engine.caracterX g)%Q /\
  Engine.directionToken g2 = Engine.directionToken g.
Proof.
  intros Hg Hr Hl [Hx0 Hx1] g1 g2.
  assert (Er : Qltb (Engine.caracterX g)
                 (Engine.canvas_width g - Engine.caracterWidth g) = true)
    by now apply Qltb_lt.
  assert (El : Qgtb (Engine.caracterX g) 0 = true) by now apply Qgtb_gt.
  unfold g2, g1, Engine.updatePlayer. rewrite Hg, Hr, Hl, Er, El. simpl.
  destruct (Engine.directionToken g); simpl; rewrite Hg, Hr, Hl; simpl.
  - replace (Qgtb (Engine.caracterX g + 10) 0) with true
      by (symmetry; apply Qgtb_gt; lra).
    simpl. repeat split; lra.
  - replace (Qltb (Engine.caracterX g - 10)
               (Engine.canvas_width g - Engine.caracterWidth g)) with true
      by (symmetry; apply Qltb_lt; lra).
    destruct (Qgtb (Engine.caracterX g - 10) 0); simpl; repeat split; lra.
Qed.

Lemma updatePlayer_alternates_when_both_held_witness :
  let g := Engine.keyDownHandler "KeyA" Samples.right_held_game in
  (Engine.caracterX (Engine.updatePlayer g) == 435)%Q /\
  (Engine.caracterX (Engine.updatePlayer (Engine.updatePlayer g)) == 425)%Q.
Proof.
  destruct (updatePlayer_alternates_when_both_held
              (Engine.keyDownHandler "KeyA" Samples.right_held_game))
    as (H1 & _ & H2 & _); try reflexivity.
  { vm_compute. split; reflexivity. }
  split; [rewrite H1|rewrite H2]; reflexivity.
Defined.

Section PaddleBound.
Import Engine Invariants.

Lemma press_and_move_dimensions keys g :
  canvas_width (press_and_move keys g) = canvas_width g /\
  caracterWidth (press_and_move keys g) = caracterWidth g.
Proof.
  unfold press_and_move, updatePlayer. simpl.
  repeat match goal with
         | |- context [if ?c then _ else _] => destruct c
         end; auto.
Qed.

End PaddleBound.

(** X19.  Whatever keys are held from frame to frame, a paddle that is
    less than one step of 10 outside the canvas stays less than one step
    outside: the guard of [updatePlayer] lets it pass an edge by less than
    10, never by more. *)
Theorem paddle_stays_within_a_step
    (keys : list (bool * bool)) (g : Engine.Game) :
  (- 10 < Engine.caracterX g
        < Engine.canvas_width g - Engine.caracterWidth g + 10)%Q ->
  let g' := fold_left (fun g0 k => Invariants.press_and_move k g0) keys g in
  (- 10 < Engine.caracterX g'
        < Engine.canvas_width g - Engine.caracterWidth g + 10)%Q.
Proof.
  revert g. induction keys as [|k keys IH]; intros g Hx; simpl; [exact Hx|].
  destruct (press_and_move_dimensions k g) as [Hw Hc].
  rewrite <- Hw, <- Hc. apply IH. rewrite Hw, Hc.
  unfold Invariants.press_and_move.
  apply (updatePlayer_within_a_step
           (Engine.set_rightPressed (snd k) (Engine.set_leftPressed (fst k) g))).
  exact Hx.
Qed.

Lemma paddle_stays_within_a_step_witness :
  let g' := fold_left (fun g0 k => Invariants.press_and_move k g0)
              (repeat (false, true) 60) Samples.right_held_game in
  (- 10 < Engine.caracterX g' < 860)%Q /\ (Engine.caracterX g' == 855)%Q.
Proof.
  destruct (paddle_stays_within_a_step (repeat (false, true) 60)
              Samples.right_held_game) as [H1 H2].
  { vm_compute. split; reflexivity. }
  split; [split; [exact H1|]|vm_compute; reflexivity].
  vm_compute. reflexivity.
Defined.

(** X20.  The key handlers.  With two different codes bound, a key-down on
    a bound code sets the intent of that direction and leaves the other
    one alone, and the key-up clears it again; a code that is not bound
    changes nothing.  With the same code bound to both directions the left
    intent can never be set from the keyboard. *)
Theorem key_handlers_set_one_intent (code : string) (g : Engine.Game) :
  (Engine.arrowLeft g <> Engine.arrowRight g ->
   Engine.rightPressed (Engine.keyDownHandler (Engine.arrowRight g) g) = true /\
   Engine.leftPressed (Engine.keyDownHandler (Engine.arrowRight g) g)
     = Engine.leftPressed g /\
   Engine.leftPressed (Engine.keyDownHandler (Engine.arrowLeft g) g) = true /\
   Engine.rightPressed (Engine.keyDownHandler (Engine.arrowLeft g) g)
     = Engine.rightPressed g /\
   Engine.leftPressed
     (Engine.keyUpHandler (Engine.arrowLeft g)
        (Engine.keyDownHandler (Engine.arrowLeft g) g)) = false /\
   Engine.rightPressed
     (Engine.keyUpHandler (Engine.arrowRight g)
        (Engine.keyDownHandler (Engine.arrowRight g) g)) = false) /\
  (code <> Engine.arrowLeft g -> code <> Engine.arrowRight g ->
   Engine.keyDownHandler code g = g /\ Engine.keyUpHandler code g = g) /\
  (Engine.arrowLeft g = Engine.arrowRight g ->
   Engine.leftPressed (Engine.keyDownHandler code g) = Engine.leftPressed g).
Proof.
  unfold Engine.keyDownHandler, Engine.keyUpHandler.
  split; [|split].
  - intros Hne.
    assert (Efalse : String.eqb (Engine.arrowLeft g) (Engine.arrowRight g) = false)
      by now apply String.eqb_neq.
    rewrite !String.eqb_refl, Efalse. simpl.
    rewrite !String.eqb_refl, Efalse. simpl. auto 10.
  - intros Hl Hr.
    destruct (String.eqb_spec code (Engine.arrowRight g)); [contradiction|].
    destruct (String.eqb_spec code (Engine.arrowLeft g)); [contradiction|].
    auto.
  - intros E. rewrite E.
    destruct (String.eqb code (Engine.arrowRight g)); reflexivity.
Qed.

Lemma key_handlers_set_one_intent_witness :
  let g := Engine.player1Game 1000 800 1 in
  Engine.rightPressed (Engine.keyDownHandler "KeyD" g) = true /\
  Engine.keyDownHandler "Space" g = g.
Proof.
  destruct (key_handlers_set_one_intent "Space" (Engine.player1Game 1000 800 1))
    as (H1 & H2 & _).
  split.
  - apply H1. discriminate.
  - apply H2; discriminate.
Defined.

(** X21.  Touch input.  Only the first two touch points count: further
    ones never change the outcome.  Without any touch both intents are
    cleared; a single touch sets exactly one of them, the left one when it
    lies in the left half of the canvas; a cancelled touch clears both. *)
Theorem touches_first_two_count (rectLeft rectWidth t1 t2 : Q)
    (more : list Q) (g : Engine.Game) :
  Touch.syncTouchesToState rectLeft rectWidth (t1 :: t2 :: more) g =
    Touch.syncTouchesToState rectLeft rectWidth [t1; t2] g /\
  Engine.leftPressed (Touch.syncTouchesToState rectLeft rectWidth [] g) = false /\
  Engine.rightPressed (Touch.syncTouchesToState rectLeft rectWidth [] g) = false /\
  Engine.leftPressed (Touch.syncTouchesToState rectLeft rectWidth [t1] g)
    = Qltb (t1 - rectLeft) (rectWidth / 2) /\
  Engine.rightPressed (Touch.syncTouchesToState rectLeft rectWidth [t1] g)
    = negb (Qltb (t1 - rectLeft) (rectWidth / 2)) /\
  Engine.leftPressed (Touch.touchCancelHandler
                        (Touch.syncTouchesToState rectLeft rectWidth [t1; t2] g))
    = false /\
  Engine.rightPressed (Touch.touchCancelHandler
                         (Touch.syncTouchesToState rectLeft rectWidth [t1; t2] g))
    = false.
Proof.
  unfold Touch.syncTouchesToState. simpl.
  split; [reflexivity|]. split; [reflexivity|]. split; [reflexivity|].
  destruct (Qltb (t1 - rectLeft) (rectWidth / 2)); simpl; auto.
Qed.

(** ** Game.js: which types the selection can return *)

Section Support.
Import NoteTypes Engine.


End Support.



(** ** Game.js: frames and the interval timers *)

Section FramesTimers.
Import Engine Vocabulary.

Lemma gameOver_timers upd g e :
  intervals (env_of (gameOver upd g e)) = intervals e /\
  (nextId (env_of (gameOver upd g e)) + length (timeouts e) =
   nextId e + length (timeouts (env_of (gameOver upd g e))))%nat /\
  difficultyIntervalId (game_of (gameOver upd g e)) = difficultyIntervalId g /\
  difficultyLevel (game_of (gameOver upd g e)) = difficultyLevel g.
Proof.
  unfold gameOver, env_of, game_of.
  destruct (dead g); [simpl; intuition lia|].
  destruct (Cookies.increment_game_state _ _ _) as [[t|] s2];
    [|simpl; intuition lia].
  destruct (_ || _); simpl; rewrite ?length_app; simpl; intuition lia.
Qed.

Lemma loop_timers i g e :
  intervals (env_of (loop i g e)) = intervals e /\
  (nextId (env_of (loop i g e)) + length (timeouts e) =
   nextId e + length (timeouts (env_of (loop i g e))))%nat /\
  difficultyIntervalId (game_of (loop i g e)) = difficultyIntervalId g /\
  difficultyLevel (game_of (loop i g e)) = difficultyLevel g.
Proof.
  unfold loop.
  set (ga := set_run (Run.set_perfNow (now i) (run g)) g).
  destruct (negb (gameStarted ga) && negb (Run.isGameOver (run ga))); [auto|].
  set (g1 := if negb (Run.isGameOver (run ga)) && _ then _ else ga).
  assert (H1 : difficultyIntervalId g1 = difficultyIntervalId g /\
               difficultyLevel g1 = difficultyLevel g).
  { unfold g1. destruct (negb (Run.isGameOver (run ga)) && _); auto. }
  rewrite updateNotes_sweep.
  destruct (sweep _ _ _ _ _ (notes g1) (run g1)) as [l' r'].
  set (g2 := set_run r' (set_notes l' g1)).
  assert (H3 : difficultyIntervalId (updatePlayer g2) = difficultyIntervalId g /\
               difficultyLevel (updatePlayer g2) = difficultyLevel g).
  { unfold updatePlayer. simpl.
    repeat match goal with
           | |- context [if ?c then _ else _] => destruct c
           end; exact H1. }
  destruct (drawNotes (updatePlayer g2)); [|unfold env_of, game_of; simpl; intuition].
  assert (H4 : difficultyIntervalId (drawLives (updatePlayer g2))
               = difficultyIntervalId g /\
               difficultyLevel (drawLives (updatePlayer g2)) = difficultyLevel g).
  { unfold drawLives.
    destruct (Run.livesLostAnimStart _); [destruct (Qleb _ _)|]; exact H3. }
  destruct (Run.isGameOver (run (drawLives (updatePlayer g2)))); [|unfold env_of, game_of; simpl; intuition].
  unfold drawGameOver.
  destruct (negb (gameOverAlreadyHandled (drawLives (updatePlayer g2))));
    [|unfold env_of, game_of; simpl; intuition].
  match goal with
  | |- context [gameOver true ?G e] =>
      destruct (gameOver_timers true G e) as (Gi & Gn & Gd & Gl);
      rewrite Gi, Gn, Gd, Gl
  end.
  simpl. intuition.
Qed.

End FramesTimers.

(** X23.  No frame starts, stops or ticks the difficulty ramp: over any
    number of frames, also past the frame in which the run ends and
    however the frames end, the live interval timers, the handle held by
    the instance and its difficulty level are what they were, and the
    handle counter of the page has moved by one for each navigation the
    frames have scheduled, and not otherwise.  Reaching game over in a
    frame does not stop the ramp. *)
Theorem frames_never_touch_timers
    (inputs : list Engine.FrameInput) (g : Engine.Game) (e : Engine.Env) :
  let res := Engine.run_frames inputs g e in
  Engine.intervals (Vocabulary.env_of res) = Engine.intervals e /\
  (Engine.nextId (Vocabulary.env_of res) + length (Engine.timeouts e) =
   Engine.nextId e + length (Engine.timeouts (Vocabulary.env_of res)))%nat /\
  Engine.difficultyIntervalId (Vocabulary.game_of res) = Engine.difficultyIntervalId g /\
  Engine.difficultyLevel (Vocabulary.game_of res) = Engine.difficultyLevel g.
Proof.
  revert g e. induction inputs as [|i rest IH]; intros g e; cbv zeta; simpl.
  - auto.
  - destruct (loop_timers i g e) as (Li & Ln & Ld & Ll).
    destruct (Engine.loop i g e) as [[[|] g1] e1];
      unfold Vocabulary.env_of, Vocabulary.game_of in *; simpl in *.
    + destruct (IH g1 e1) as (Ri & Rn & Rd & Rl).
      unfold Vocabulary.env_of, Vocabulary.game_of in *.
      split; [congruence|]. split; [lia|]. split; congruence.
    + auto.
Qed.

(** ** Game.js with the registry of the game: the game-over cue *)

Section CueOnce.
Import Run NoteTypes Invariants.

Lemma cue_count_playSfx_other key key' r :
  key <> key' -> cue_count key (playSfx key' r) = cue_count key r.
Proof.
  intros Hne. unfold playSfx, cue_count.
  destruct (has_audio key' r); [|reflexivity]. simpl.
  rewrite filter_app, length_app.
  rewrite filter_cons_False; [simpl; lia|].
  apply String.eqb_neq in Hne. simpl. rewrite Hne. discriminate.
Qed.

Lemma checkGameOver_cue r0 r :
  isGameOver r = false -> game_over_cue_once r0 r ->
  game_over_cue_once r0 (checkGameOver r).
Proof.
  intros Hg [Hs Hc]. rewrite Hg in Hc. simpl in Hc.
  split; [now rewrite checkGameOver_sfx|].
  destruct (Qgtb (lives r) 0) eqn:E.
  - unfold checkGameOver. rewrite E, Hg. simpl. exact Hc.
  - apply Qgtb_le in E.
    destruct (checkGameOver_depleted r E) as (_ & Ho & _). rewrite Ho. simpl.
    unfold checkGameOver. rewrite (proj2 (Qgtb_le _ _) E).
    match goal with |- cue_count _ (playSfx _ ?s) = _ =>
      assert (Hsf : sfx s = sfx r /\ played s = played r)
        by (destruct r as [sc lv go ll da sf pl pn]; simpl; destruct da; auto);
      set (s3 := s) in * end.
    destruct Hsf as [Hsf Hpl].
    assert (Ha : has_audio "gameOver" s3 = has_audio "gameOver" r0)
      by (unfold has_audio; now rewrite Hsf, Hs).
    destruct (has_audio "gameOver" r0) eqn:Ea.
    + rewrite cue_count_playSfx by exact Ha.
      unfold cue_count in *. rewrite Hpl. lia.
    + unfold playSfx. rewrite Ha. unfold cue_count in *. rewrite Hpl. lia.
Qed.

Lemma registry_catch_cue t r0 r :
  In t buildNoteTypes ->
  isGameOver r = false -> game_over_cue_once r0 r ->
  game_over_cue_once r0 (onCatch t r (info t)).
Proof.
  intros Hin Hg Hc.
  assert (Hplay : forall key s,
            key <> "gameOver"%string -> isGameOver s = false ->
            game_over_cue_once r0 s -> game_over_cue_once r0 (playSfx key s)).
  { intros key s Hk Hgs [Hs Hn].
    destruct (playSfx_fields key s) as (_ & _ & Eg & _ & _ & Ef & _).
    split; [congruence|].
    rewrite Eg, cue_count_playSfx_other by congruence. exact Hn. }
  assert (Hplay_flag : forall key s, isGameOver (playSfx key s) = isGameOver s).
  { intros key s. now destruct (playSfx_fields key s) as (_ & _ & Eg & _). }
  simpl in Hin.
  destruct Hin as [<-|[<-|[<-|[<-|[<-|[<-|[<-|[]]]]]]]]; simpl;
    unfold onCatchA, onCatchGood, onCatchBad;
    first [ apply Hplay; [discriminate|exact Hg|exact Hc]
          | apply checkGameOver_cue;
            [rewrite Hplay_flag; exact Hg
            |apply Hplay; [discriminate|exact Hg|exact Hc]] ].
Qed.

Lemma sweep_cue H px py pw ph l r0 r :
  Forall registry_note l -> game_over_cue_once r0 r ->
  game_over_cue_once r0 (snd (Vocabulary.sweep H px py pw ph l r)).
Proof.
  intros Hl Hc. induction Hl as [|n0 l Hn Hl IH]; simpl; [exact Hc|].
  destruct (Vocabulary.sweep H px py pw ph l r) as [l' r1]. simpl in IH.
  destruct (isOut H (update n0)); simpl; [exact IH|].
  destruct (Run.isGameOver r1) eqn:Eg; simpl; [exact IH|].
  destruct (collidesWithRect px py pw ph (update n0)); simpl; [|exact IH].
  destruct Hn as (t & Ht & Hin). rewrite Ht.
  now apply registry_catch_cue.
Qed.

End CueOnce.

Section CueFrames.
Import Engine Vocabulary Invariants.

Lemma game_over_cue_once_transfer r0 r r' :
  Run.sfx r' = Run.sfx r -> Run.played r' = Run.played r ->
  Run.isGameOver r' = Run.isGameOver r ->
  game_over_cue_once r0 r -> game_over_cue_once r0 r'.
Proof.
  intros Hs Hp Hg [Cs Cn]. unfold game_over_cue_once, Run.cue_count in *.
  rewrite Hs, Hp, Hg. auto.
Qed.

Lemma drawLives_sfx g : Run.sfx (run (drawLives g)) = Run.sfx (run g).
Proof.
  unfold drawLives. destruct (Run.livesLostAnimStart (run g)); [|reflexivity].
  now destruct (Qleb _ _).
Qed.

Lemma before_overlay_cue i g r0 :
  noteTypes g = NoteTypes.buildNoteTypes ->
  Forall registry_note (notes g) ->
  game_over_cue_once r0 (run g) ->
  let g' := before_overlay i g in
  noteTypes g' = NoteTypes.buildNoteTypes /\
  Forall registry_note (notes g') /\
  game_over_cue_once r0 (run g').
Proof.
  intros Hty Hn Hc. unfold before_overlay.
  set (ga := set_run (Run.set_perfNow (now i) (run g)) g).
  assert (Hca : game_over_cue_once r0 (run ga))
    by (apply (game_over_cue_once_transfer r0 (run g)); auto).
  destruct (negb (gameStarted ga) && negb (Run.isGameOver (run ga)));
    [simpl; auto|].
  set (g1 := if negb (Run.isGameOver (run ga)) && _ then _ else ga).
  assert (H1 : noteTypes g1 = NoteTypes.buildNoteTypes /\
               Forall registry_note (notes g1) /\ run g1 = run ga).
  { unfold g1. destruct (negb (Run.isGameOver (run ga)) && _);
      [|repeat split; auto].
    split; [exact Hty|]. split; [|reflexivity].
    unfold spawnNote. simpl. apply Forall_app. split; [exact Hn|].
    constructor; [|constructor].
    destruct (selectNoteType_nonempty (rndType i * totalWeight ga)
                (noteTypes ga)) as (t & Ht & Hin).
    { simpl. rewrite Hty. discriminate. }
    exists t. split; [exact Ht|]. simpl in Hin. now rewrite Hty in Hin. }
  destruct H1 as (Hty1 & Hn1 & Hr1).
  assert (Hc1 : game_over_cue_once r0 (run g1)) by (rewrite Hr1; exact Hca).
  pose proof (sweep_cue (canvas_height g1) (caracterX g1)
                (canvas_height g1 - caracterHeight g1)%Q
                (caracterWidth g1) (caracterHeight g1) (notes g1) r0 (run g1)
                Hn1 Hc1) as Sc.
  destruct (sweep_survivors (canvas_height g1) (caracterX g1)
              (canvas_height g1 - caracterHeight g1)%Q
              (caracterWidth g1) (caracterHeight g1) (notes g1) (run g1))
    as [_ Ssub].
  destruct (sweep _ _ _ _ _ (notes g1) (run g1)) as [l' r'].
  simpl in Sc, Ssub.
  assert (Sn : Forall registry_note l').
  { assert (Hup : Forall registry_note (map NoteTypes.update (notes g1))).
    { apply Forall_map. eapply Forall_impl; [exact Hn1|].
      intros n. apply registry_note_update. }
    induction Ssub as [|n la lb Hs IHs|n la lb Hs IHs]; [constructor| |].
    - inversion Hup; subst. constructor; auto.
    - inversion Hup; subst. auto. }
  set (g2 := set_run r' (set_notes l' g1)).
  destruct (updatePlayer_fields g2) as (Pr & Pn & _ & _ & Pt & _).
  destruct (drawLives_outcome (updatePlayer g2))
    as ((_ & _ & Lg & _ & Lp) & Ln & Lt & _).
  rewrite Lt, Pt, Ln, Pn. simpl.
  split; [exact Hty1|]. split; [exact Sn|].
  apply (game_over_cue_once_transfer r0 r'); [| | |exact Sc].
  - now rewrite drawLives_sfx, Pr.
  - now rewrite Lp, Pr.
  - now rewrite Lg, Pr.
Qed.

Lemma loop_cue i g e r0 :
  noteTypes g = NoteTypes.buildNoteTypes ->
  Forall registry_note (notes g) ->
  game_over_cue_once r0 (run g) ->
  let g' := game_of (loop i g e) in
  noteTypes g' = NoteTypes.buildNoteTypes /\
  Forall registry_note (notes g') /\
  game_over_cue_once r0 (run g').
Proof.
  intros Hty Hn Hc.
  rewrite loop_before_overlay.
  - destruct (before_overlay_cue i g r0 Hty Hn Hc) as (Bt & Bn & Bc).
    simpl. destruct (Run.isGameOver (run (before_overlay i g))).
    + destruct (drawGameOver_game (before_overlay i g) e) as (Dr & Dn & Dt & _).
      rewrite Dr, Dn, Dt. auto.
    + simpl. auto.
  - rewrite Hty. discriminate.
  - eapply Forall_impl; [exact Hn|]. apply registry_note_typed.
Qed.

Lemma run_frames_cue inputs :
  forall g e r0,
    noteTypes g = NoteTypes.buildNoteTypes ->
    Forall registry_note (notes g) ->
    game_over_cue_once r0 (run g) ->
    game_over_cue_once r0 (run (game_of (run_frames inputs g e))).
Proof.
  induction inputs as [|i rest IH]; intros g e r0 Hty Hn Hc; simpl;
    [exact Hc|].
  destruct (loop_cue i g e r0 Hty Hn Hc) as (Lt & Ln & Lc).
  destruct (loop i g e) as [[[|] g1] e1]; simpl in *.
  - now apply IH.
  - exact Lc.
Qed.

End CueFrames.

(** X24.  The game as [initialiseGame] sets it up, from a live state:
    over any number of frames the game-over cue is played exactly once if
    the run has ended and the sound is loaded, and not at all otherwise.
    [checkGameOver] on its own plays the cue at every call with the lives
    depleted; it is [updateNotes] that stops calling the strategies once
    the run is over. *)
Theorem game_over_cue_once_per_run
    (inputs : list Engine.FrameInput) (g : Engine.Game) (e : Engine.Env) :
  Engine.noteTypes g = NoteTypes.buildNoteTypes ->
  Forall Invariants.registry_note (Engine.notes g) ->
  Run.isGameOver (Engine.run g) = false ->
  let r' := Engine.run (Vocabulary.game_of (Engine.run_frames inputs g e)) in
  Run.cue_count "gameOver" r' =
    (Run.cue_count "gameOver" (Engine.run g) +
     (if Run.isGameOver r' && Run.has_audio "gameOver" (Engine.run g)
      then 1 else 0))%nat.
Proof.
  intros Hty Hn Hg r'.
  assert (H0 : Invariants.game_over_cue_once (Engine.run g) (Engine.run g)).
  { split; [reflexivity|]. rewrite Hg. simpl. lia. }
  destruct (run_frames_cue inputs g e (Engine.run g) Hty Hn H0) as [_ H].
  exact H.
Qed.

Lemma game_over_cue_once_per_run_witness :
  Run.cue_count "gameOver"
    (Engine.run (Vocabulary.game_of
       (Engine.run_frames (repeat (Samples.quiet_frame 0) 5)
          Samples.half_life_game Samples.released_env))) = 1%nat.
Proof.
  rewrite (game_over_cue_once_per_run (repeat (Samples.quiet_frame 0) 5)
             Samples.half_life_game Samples.released_env).
  - reflexivity.
  - reflexivity.
  - repeat constructor. exists Samples.typeF. split; [reflexivity|].
    simpl. do 6 right. left. reflexivity.
  - reflexivity.
Defined.
